(** * Shopping-cart hook (useCart): embedding and verification

    Two source files are embedded:
    - [src/hooks/useCart.tsx], the full cart provider (module [UseCart]);
    - the unnamed second file, an earlier draft of the same provider that
      writes to localStorage inside the handlers and whose
      [updateProductAmount] is an empty stub (module [Part000]).

    Modelling choices.
    - JavaScript numbers that the code treats as integers (ids, amounts,
      stock) are [Z]; prices are inert payload and are kept as [Q].  The
      code's numbers are doubles: comparisons of integers are exact on them,
      and the one sum the handlers compute, [currentAmount + 1], is the
      integer sum for the amounts from -2^53 up to 2^53 - 1
      ([increment_exact]) and is rounded above them (2^53 + 1 is 2^53).  The
      integers of the model are the code's numbers on that range: a
      statement about the value of an incremented amount is made for
      amounts in it.
    - Cart entries are JavaScript objects that the handlers mutate in place
      ([productExists.amount = amount]) while the array [updatedCart] is only
      a shallow copy of [cart].  Objects therefore live in a heap indexed by
      references, arrays hold references, and the contents of an array are
      read through the heap ([view]).
    - An array carries an identity ([ref]) because the persistence effect
      compares arrays with [!==].  [push] and [splice] act on [updatedCart]
      only, which nothing else holds before [setCart]; they rebind the local
      array value.
    - A handler body is a computation in a state-and-exception monad [Js];
      [try_catch] is the handler's [try { ... } catch { ... }].
    - The HTTP collaborators are functions from the requested id to a
      response; every request is logged in the world.  The body of a stock
      response is untyped in the source and is modelled by what
      [stock.data.amount] can do: raise, yield no number, or yield a number.
      The body of a catalog response is taken at the type of the array that
      receives it.
    - [toast.error], [setCart], [JSON.stringify] and [localStorage.setItem]
      are library calls that return normally; [useEffect] is React's, by
      whatever module path the file imports it.
    - A handler runs to completion from the [cart] of the latest render, and
      React renders the provider again (running its effects) before the next
      handler starts. *)

From stdpp Require Import gmap list strings.
From Stdlib Require Import ZArith QArith.

Open Scope Z_scope.

(** ** Data model *)

(** Modelled from the spec: the [Product] interface of [src/types.ts], which
    is imported by both files but is not part of the sources at hand.  The
    spec's CartEntry is
    [{ id: integer, title: string, price: number, image: string, amount: integer }]. *)
Record Product : Type := mkProduct {
  id : Z;
  title : string;
  price : Q;
  image : string;
  amount : Z
}.

(** [{ ...product, amount: a }] and [product.amount = a] produce this record. *)
Definition with_amount (a : Z) (product : Product) : Product :=
  {| id := id product; title := title product; price := price product;
     image := image product; amount := a |}.

(** Object references and arrays of references. *)
Definition loc : Type := nat.

Record Array : Type := mkArray {
  ref : nat;          (* identity of the array object *)
  items : list loc    (* its elements, in index order *)
}.

(** The messages handed to [toast.error]. *)
Inductive Notification : Type :=
| OutOfStock      (* 'Quantidade solicitada fora de estoque' *)
| AddFailed       (* 'Erro na adição de produto' *)
| RemoveFailed    (* 'Erro na remoção do produto' *)
| UpdateFailed.   (* 'Erro na alteração de quantidade do produto' *)

Definition message (n : Notification) : string :=
  match n with
  | OutOfStock => "Quantidade solicitada fora de estoque"
  | AddFailed => "Erro na adição de produto"
  | RemoveFailed => "Erro na remoção do produto"
  | UpdateFailed => "Erro na alteração de quantidade do produto"
  end.

(** ** Collaborators *)

(** [api.get] returns a promise: it rejects, or resolves to a response. *)
Inductive Response (A : Type) : Type :=
| Rejected
| Resolved (data : A).
Arguments Rejected {A}.
Arguments Resolved {A} data.

(** The body of [GET /stock/:id] is untyped in the source, which reads
    [stock.data.amount] and only ever uses it on the right of [>]. *)
Inductive StockData : Type :=
| NoData                     (* data is null or undefined *)
| NoAmount                   (* data has no numeric [amount]: undefined, NaN *)
| Amount (stockAmount : Z).

(** The body of [GET /products/:id] is spread into the new entry; it is taken
    at the type of the array that receives it. *)
Record Api : Type := mkApi {
  stock_of : Z → Response StockData;
  product_of : Z → Response Product
}.

Inductive Request : Type :=
| GetStock (productId : Z)       (* api.get(`/stock/${productId}`) *)
| GetProduct (productId : Z).    (* api.get(`/products/${productId}`) *)

(** ** The world a handler runs in *)

Record World : Type := mkWorld {
  heap : gmap loc Product;          (* the entry objects *)
  fresh : nat;                      (* next unused reference *)
  cartState : Array;                (* the [useState] cell: [cart] *)
  prevCartRef : option Array;       (* the [useRef] cell: [prevCartRef.current] *)
  effectDeps : option (nat * nat);  (* dependencies at the last run of the
                                       persistence effect *)
  localStorage : option string;     (* the value under '@RocketShoes:cart' *)
  setItemCalls : list string;       (* every value written, newest first *)
  toasts : list Notification;       (* newest first *)
  requests : list Request           (* newest first *)
}.

Definition set_heap (h : gmap loc Product) (w : World) : World :=
  mkWorld h (fresh w) (cartState w) (prevCartRef w) (effectDeps w)
          (localStorage w) (setItemCalls w) (toasts w) (requests w).

Definition set_fresh (n : nat) (w : World) : World :=
  mkWorld (heap w) n (cartState w) (prevCartRef w) (effectDeps w)
          (localStorage w) (setItemCalls w) (toasts w) (requests w).

Definition set_cartState (c : Array) (w : World) : World :=
  mkWorld (heap w) (fresh w) c (prevCartRef w) (effectDeps w)
          (localStorage w) (setItemCalls w) (toasts w) (requests w).

Definition set_prevCartRef (r : option Array) (w : World) : World :=
  mkWorld (heap w) (fresh w) (cartState w) r (effectDeps w)
          (localStorage w) (setItemCalls w) (toasts w) (requests w).

Definition set_effectDeps (d : option (nat * nat)) (w : World) : World :=
  mkWorld (heap w) (fresh w) (cartState w) (prevCartRef w) d
          (localStorage w) (setItemCalls w) (toasts w) (requests w).

Definition set_localStorage (v : string) (w : World) : World :=
  mkWorld (heap w) (fresh w) (cartState w) (prevCartRef w) (effectDeps w)
          (Some v) (v :: setItemCalls w) (toasts w) (requests w).

Definition add_toast (n : Notification) (w : World) : World :=
  mkWorld (heap w) (fresh w) (cartState w) (prevCartRef w) (effectDeps w)
          (localStorage w) (setItemCalls w) (n :: toasts w) (requests w).

Definition add_request (r : Request) (w : World) : World :=
  mkWorld (heap w) (fresh w) (cartState w) (prevCartRef w) (effectDeps w)
          (localStorage w) (setItemCalls w) (toasts w) (r :: requests w).

(** The entries an array denotes in a heap. *)
Definition view (h : gmap loc Product) (a : Array) : list Product :=
  omap (λ l, h !! l) (items a).

(** The canonical cart list. *)
Definition cart_list (w : World) : list Product := view (heap w) (cartState w).

(** ** The handler monad: state and exceptions *)

Inductive Completion (A : Type) : Type :=
| Normal (a : A)
| Thrown.
Arguments Normal {A} a.
Arguments Thrown {A}.

Definition Js (A : Type) : Type := World → Completion A * World.

Definition ret {A} (a : A) : Js A := λ w, (Normal a, w).

Definition bind {A B} (m : Js A) (k : A → Js B) : Js B :=
  λ w, match m w with
       | (Normal a, w') => k a w'
       | (Thrown, w') => (Thrown, w')
       end.

Definition throw {A} : Js A := λ w, (Thrown, w).

(** [try { body } catch { handler }] *)
Definition try_catch (body handler : Js unit) : Js unit :=
  λ w, match body w with
       | (Normal a, w') => (Normal a, w')
       | (Thrown, w') => handler w'
       end.

Declare Scope js_scope.
Delimit Scope js_scope with js.
Notation "'let*' x := m 'in' k" := (bind m (λ x, k))
  (at level 10, x name, m at level 100, k at level 200, only parsing) : js_scope.
Notation "m ;;; k" := (bind m (λ _, k))
  (at level 100, k at level 200, right associativity, only parsing) : js_scope.
Open Scope js_scope.

(** ** Primitive operations *)

(** [[...cart]]: a new array with the same elements. *)
Definition spread (a : Array) : Js Array :=
  λ w, (Normal (mkArray (fresh w) (items a)), set_fresh (S (fresh w)) w).

(** Reading a property of an entry.  Every reference held by an array is
    allocated (see [wf_world]); a dangling one raises, as a property read on
    [undefined] does. *)
Definition read (l : loc) : Js Product :=
  λ w, match heap w !! l with
       | Some product => (Normal product, w)
       | None => (Thrown, w)
       end.

(** [product.amount = a] on the object behind [l]. *)
Definition assign_amount (l : loc) (a : Z) : Js unit :=
  λ w, match heap w !! l with
       | Some product => (Normal tt, set_heap (<[l := with_amount a product]> (heap w)) w)
       | None => (Thrown, w)
       end.

(** An object literal: a new object. *)
Definition new_object (product : Product) : Js loc :=
  λ w, (Normal (fresh w),
        set_fresh (S (fresh w)) (set_heap (<[fresh w := product]> (heap w)) w)).

Definition toast_error (n : Notification) : Js unit :=
  λ w, (Normal tt, add_toast n w).

Definition setCart (updatedCart : Array) : Js unit :=
  λ w, (Normal tt, set_cartState updatedCart w).

(** [await api.get(...)]: the request is made, and a rejection is raised at
    the [await]. *)
Definition await {A} (r : Request) (response : Response A) : Js A :=
  λ w, match response with
       | Rejected => (Thrown, add_request r w)
       | Resolved data => (Normal data, add_request r w)
       end.

(** [stock.data.amount]: [None] stands for a value that [>] coerces to NaN. *)
Definition data_amount (data : StockData) : Js (option Z) :=
  match data with
  | NoData => throw
  | NoAmount => ret None
  | Amount stockAmount => ret (Some stockAmount)
  end.

(** [amount > stockAmount]; a comparison with NaN is false. *)
Definition js_gt (amount : Z) (stockAmount : option Z) : bool :=
  match stockAmount with
  | Some s => bool_decide (s < amount)
  | None => false
  end.

(** [product => product.id === productId], read through the heap. *)
Definition has_id (h : gmap loc Product) (productId : Z) (l : loc) : bool :=
  match h !! l with
  | Some product => bool_decide (id product = productId)
  | None => false
  end.

(** [Array.prototype.find]: the first element satisfying [f], or undefined. *)
Fixpoint find {A} (f : A → bool) (xs : list A) : option A :=
  match xs with
  | [] => None
  | x :: xs' => if f x then Some x else find f xs'
  end.

(** [Array.prototype.findIndex]: the index of the first element satisfying
    [f], or -1. *)
Fixpoint findIndex_from {A} (f : A → bool) (xs : list A) (i : Z) : Z :=
  match xs with
  | [] => -1
  | x :: xs' => if f x then i else findIndex_from f xs' (i + 1)
  end.

Definition findIndex {A} (f : A → bool) (xs : list A) : Z := findIndex_from f xs 0.

(** [xs.splice(start, deleteCount)] for [0 <= start]: the array that remains. *)
Definition splice {A} (start : Z) (deleteCount : nat) (xs : list A) : list A :=
  take (Z.to_nat start) xs ++ drop (Z.to_nat start + deleteCount) xs.

Definition array_find (productId : Z) (a : Array) : Js (option loc) :=
  λ w, (Normal (find (has_id (heap w) productId) (items a)), w).

Definition array_findIndex (productId : Z) (a : Array) : Js Z :=
  λ w, (Normal (findIndex (has_id (heap w) productId) (items a)), w).

Definition array_push (a : Array) (l : loc) : Array :=
  mkArray (ref a) (items a ++ [l]).

Definition array_splice (a : Array) (start : Z) (deleteCount : nat) : Array :=
  mkArray (ref a) (splice start deleteCount (items a)).

(** [JSON.parse] of a stored snapshot builds fresh objects, one per entry. *)
Fixpoint new_objects (products : list Product) : Js (list loc) :=
  match products with
  | [] => ret []
  | product :: rest =>
      let* l := new_object product in
      let* ls := new_objects rest in
      ret (l :: ls)
  end.

Definition new_array (ls : list loc) : Js Array :=
  λ w, (Normal (mkArray (fresh w) ls), set_fresh (S (fresh w)) w).

(** The world before the provider is mounted. *)
Definition blank (stored : option string) : World :=
  mkWorld ∅ 1%nat (mkArray 0%nat []) None None stored [] [] [].

(** What a user asks of the cart. *)
Inductive Action : Type :=
| Add (productId : Z)
| Remove (productId : Z)
| Update (productId : Z) (amount : Z).

(** ** src/hooks/useCart.tsx *)

Module UseCart.
Section CartProvider.

(** [JSON.stringify] belongs to the platform. *)
Variable JSON_stringify : list Product → string.
Variable api : Api.

(** The body of the component after the [useState] line: one render,
    followed by its two effects in declaration order. *)
Definition render (w : World) : World :=
  let cart := cartState w in
  let cartPreviousValue := default cart (prevCartRef w) in
  (* useEffect(() => { prevCartRef.current = cart }) *)
  let w := set_prevCartRef (Some cart) w in
  (* useEffect(() => { ... }, [cart, cartPreviousValue]) *)
  let deps := (ref cart, ref cartPreviousValue) in
  if bool_decide (effectDeps w = Some deps) then w
  else
    let w := set_effectDeps (Some deps) w in
    if bool_decide (ref cartPreviousValue ≠ ref cart)
    then set_localStorage (JSON_stringify (view (heap w) cart)) w
    else w.

Definition addProduct (cart : Array) (productId : Z) : Js unit :=
  try_catch
    (let* updatedCart := spread cart in
     let* productExists := array_find productId updatedCart in
     let* stock := await (GetStock productId) (stock_of api productId) in
     let* stockAmount := data_amount stock in
     let* currentAmount :=
       match productExists with
       | Some l => let* product := read l in ret (amount product)
       | None => ret 0
       end in
     let amount := currentAmount + 1 in
     if js_gt amount stockAmount then toast_error OutOfStock
     else
       let* updatedCart :=
         match productExists with
         | Some l =>
             assign_amount l amount ;;;
             ret updatedCart
         | None =>
             let* product := await (GetProduct productId) (product_of api productId) in
             let* newProduct := new_object (with_amount 1 product) in
             ret (array_push updatedCart newProduct)
         end in
       setCart updatedCart)
    (toast_error AddFailed).

Definition removeProduct (cart : Array) (productId : Z) : Js unit :=
  try_catch
    (let* updatedCart := spread cart in
     let* productIndex := array_findIndex productId updatedCart in
     if bool_decide (productIndex >= 0)
     then setCart (array_splice updatedCart productIndex 1)
     else throw)
    (toast_error RemoveFailed).

Definition updateProductAmount (cart : Array) (productId amount : Z) : Js unit :=
  try_catch
    (if bool_decide (amount <= 0) then ret tt
     else
       let* stock := await (GetStock productId) (stock_of api productId) in
       let* stockAmount := data_amount stock in
       if js_gt amount stockAmount then toast_error OutOfStock
       else
         let* updatedCart := spread cart in
         let* productExists := array_find productId updatedCart in
         match productExists with
         | Some l =>
             assign_amount l amount ;;;
             setCart updatedCart
         | None => throw
         end)
    (toast_error UpdateFailed).

(** The handlers close over the [cart] of the render that created them. *)
Definition handle (cart : Array) (a : Action) : Js unit :=
  match a with
  | Add productId => addProduct cart productId
  | Remove productId => removeProduct cart productId
  | Update productId amount => updateProductAmount cart productId amount
  end.

(** React renders the provider again when [setCart] received another array. *)
Definition rerender (before : Array) (w : World) : World :=
  if bool_decide (ref (cartState w) = ref before) then w else render w.

Definition step (a : Action) (w : World) : Completion unit * World :=
  match handle (cartState w) a w with
  | (c, w') => (c, rerender (cartState w) w')
  end.

(** Mounting: the [useState] initialiser has produced [entries] (the parsed
    snapshot, or nothing), then the first render runs. *)
Definition mount (entries : list Product) (stored : option string) : World :=
  match (let* ls := new_objects entries in
         let* cart := new_array ls in
         setCart cart) (blank stored) with
  | (_, w) => render w
  end.

End CartProvider.
End UseCart.

(** ** The unnamed second file (draft of the provider) *)

Module Part000.
Section CartProvider.

Variable JSON_stringify : list Product → string.
Variable api : Api.

(** [localStorage.setItem('@RocketShoes:cart', JSON.stringify(updatedCart))] *)
Definition setItem (updatedCart : Array) : Js unit :=
  λ w, (Normal tt, set_localStorage (JSON_stringify (view (heap w) updatedCart)) w).

Definition addProduct (cart : Array) (productId : Z) : Js unit :=
  try_catch
    (let* updatedCart := spread cart in
     let* productExists := array_find productId updatedCart in
     let* stock := await (GetStock productId) (stock_of api productId) in
     let* stockAmount := data_amount stock in
     let* currentAmount :=
       match productExists with
       | Some l => let* product := read l in ret (amount product)
       | None => ret 0
       end in
     let amount := currentAmount + 1 in
     if js_gt amount stockAmount then toast_error OutOfStock
     else
       let* updatedCart :=
         match productExists with
         | Some l =>
             assign_amount l amount ;;;
             ret updatedCart
         | None =>
             let* product := await (GetProduct productId) (product_of api productId) in
             let* newProduct := new_object (with_amount 1 product) in
             ret (array_push updatedCart newProduct)
         end in
       setCart updatedCart ;;;
       setItem updatedCart)
    (toast_error AddFailed).

Definition removeProduct (cart : Array) (productId : Z) : Js unit :=
  try_catch
    (let* updatedCart := spread cart in
     let* productIndex := array_findIndex productId updatedCart in
     if bool_decide (productIndex >= 0)
     then
       let updatedCart := array_splice updatedCart productIndex 1 in
       setCart updatedCart ;;;
       setItem updatedCart
     else throw)
    (toast_error RemoveFailed).

(** [try { // TODO } catch { // TODO }] *)
Definition updateProductAmount (cart : Array) (productId amount : Z) : Js unit :=
  try_catch (ret tt) (ret tt).

Definition handle (cart : Array) (a : Action) : Js unit :=
  match a with
  | Add productId => addProduct cart productId
  | Remove productId => removeProduct cart productId
  | Update productId amount => updateProductAmount cart productId amount
  end.

(** This component has no effects: a render changes nothing in the world. *)
Definition step (a : Action) (w : World) : Completion unit * World :=
  handle (cartState w) a w.

Definition mount (entries : list Product) (stored : option string) : World :=
  match (let* ls := new_objects entries in
         let* cart := new_array ls in
         setCart cart) (blank stored) with
  | (_, w) => w
  end.

End CartProvider.
End Part000.

(** ** Invariants of reachable worlds *)

(** References are allocated before they are used, no object occurs twice in
    the cart array (every entry is a fresh object of [JSON.parse] or of an
    object literal), and the allocator is ahead of everything allocated. *)
Record wf_world (w : World) : Prop := mk_wf_world {
  wf_nodup : NoDup (items (cartState w));
  wf_allocated : Forall (λ l, is_Some (heap w !! l)) (items (cartState w));
  wf_heap_fresh : ∀ l, is_Some (heap w !! l) → (l < fresh w)%nat;
  wf_cart_fresh : (ref (cartState w) < fresh w)%nat
}.

(** After a render of [UseCart] and its effects, [prevCartRef.current] is the
    rendered [cart], and the persistence effect last ran for that [cart]. *)
Definition settled (w : World) : Prop :=
  prevCartRef w = Some (cartState w) ∧
  fst <$> effectDeps w = Some (ref (cartState w)).

(** At most one entry per product id. *)
Definition unique_ids (cart : list Product) : Prop := NoDup (id <$> cart).

(** A catalog that answers a lookup with the product that was asked for. *)
Definition catalog_faithful (api : Api) : Prop :=
  ∀ productId product, product_of api productId = Resolved product → id product = productId.

(** The requests made between two worlds (newest first). *)
Definition queried (w w' : World) : list Request :=
  take (length (requests w') - length (requests w)) (requests w').

(** ** The handlers read on lists of entries

    The definitions of this part describe, on the list an array denotes,
    what a handler of [UseCart] decides; [handle_refines] proves that the
    handlers do exactly this on the heap.  They are used in proofs only. *)

Inductive Verdict : Type :=
| Commit (updatedCart : list Product)   (* [setCart] is reached *)
| Notify (n : Notification)             (* [toast.error] is reached *)
| Silent.                               (* neither *)

Definition same_id (productId : Z) (product : Product) : bool :=
  bool_decide (id product = productId).

Definition first_with_id (productId : Z) (cart : list Product) : option Product :=
  find (same_id productId) cart.

(** The list after [productExists.amount = a]. *)
Fixpoint assign_first (productId a : Z) (cart : list Product) : list Product :=
  match cart with
  | [] => []
  | product :: rest =>
      if same_id productId product then with_amount a product :: rest
      else product :: assign_first productId a rest
  end.

(** What [stock.data.amount] evaluates to; [None] when it raises. *)
Definition stock_reading (r : Response StockData) : option (option Z) :=
  match r with
  | Rejected => None
  | Resolved NoData => None
  | Resolved NoAmount => Some None
  | Resolved (Amount s) => Some (Some s)
  end.

Definition current_amount (productId : Z) (cart : list Product) : Z :=
  from_option amount 0 (first_with_id productId cart).

Definition add_verdict (api : Api) (productId : Z) (cart : list Product) : Verdict :=
  match stock_reading (stock_of api productId) with
  | None => Notify AddFailed
  | Some stockAmount =>
      if js_gt (current_amount productId cart + 1) stockAmount then Notify OutOfStock
      else
        match first_with_id productId cart with
        | Some _ => Commit (assign_first productId (current_amount productId cart + 1) cart)
        | None =>
            match product_of api productId with
            | Rejected => Notify AddFailed
            | Resolved product => Commit (cart ++ [with_amount 1 product])
            end
        end
  end.

Definition remove_verdict (productId : Z) (cart : list Product) : Verdict :=
  let productIndex := findIndex (same_id productId) cart in
  if bool_decide (productIndex >= 0) then Commit (splice productIndex 1 cart)
  else Notify RemoveFailed.

Definition update_verdict (api : Api) (productId a : Z) (cart : list Product) : Verdict :=
  if bool_decide (a <= 0) then Silent
  else
    match stock_reading (stock_of api productId) with
    | None => Notify UpdateFailed
    | Some stockAmount =>
        if js_gt a stockAmount then Notify OutOfStock
        else
          match first_with_id productId cart with
          | Some _ => Commit (assign_first productId a cart)
          | None => Notify UpdateFailed
          end
    end.

Definition verdict (api : Api) (a : Action) (cart : list Product) : Verdict :=
  match a with
  | Add productId => add_verdict api productId cart
  | Remove productId => remove_verdict productId cart
  | Update productId a => update_verdict api productId a cart
  end.

(** The requests a handler of [UseCart] makes (newest first). *)
Definition queries (api : Api) (a : Action) (cart : list Product) : list Request :=
  match a with
  | Add productId =>
      match stock_reading (stock_of api productId), first_with_id productId cart with
      | Some stockAmount, None =>
          if js_gt (current_amount productId cart + 1) stockAmount then [GetStock productId]
          else [GetProduct productId; GetStock productId]
      | _, _ => [GetStock productId]
      end
  | Remove _ => []
  | Update productId a =>
      if bool_decide (a <= 0) then [] else [GetStock productId]
  end.

(** ** The failure taxonomy of the error-handling design *)

(** (a) stock exceeded: the desired amount is above the stock reported. *)
Definition stock_exceeded (api : Api) (a : Action) (cart : list Product) : Prop :=
  match a with
  | Add productId =>
      ∃ s, stock_of api productId = Resolved (Amount s) ∧
           current_amount productId cart + 1 > s
  | Remove _ => False
  | Update productId a =>
      0 < a ∧ ∃ s, stock_of api productId = Resolved (Amount s) ∧ a > s
  end.

(** (b) entity not found: the target of a removal or of an update (of a
    positive amount) is not in the cart. *)
Definition target_absent (a : Action) (cart : list Product) : Prop :=
  match a with
  | Add _ => False
  | Remove productId => first_with_id productId cart = None
  | Update productId a => 0 < a ∧ first_with_id productId cart = None
  end.

(** (c) collaborator failure, as the design describes it: a request that was
    made met a network error or a malformed response. *)
Definition rejected_or_malformed (api : Api) (r : Request) : Prop :=
  match r with
  | GetStock productId =>
      match stock_of api productId with
      | Resolved (Amount _) => False
      | _ => True
      end
  | GetProduct productId => product_of api productId = Rejected
  end.

(** (c) collaborator failure, as the handlers detect it: a request that was
    made met a network error, or a stock response without a body. *)
Definition rejected_or_no_data (api : Api) (r : Request) : Prop :=
  match r with
  | GetStock productId =>
      stock_of api productId = Rejected ∨ stock_of api productId = Resolved NoData
  | GetProduct productId => product_of api productId = Rejected
  end.

Definition failure_as_designed (api : Api) (a : Action) (w w' : World) : Prop :=
  stock_exceeded api a (cart_list w) ∨ target_absent a (cart_list w) ∨
  Exists (rejected_or_malformed api) (queried w w').

Definition failure_as_detected (api : Api) (a : Action) (w w' : World) : Prop :=
  stock_exceeded api a (cart_list w) ∨ target_absent a (cart_list w) ∨
  Exists (rejected_or_no_data api) (queried w w').

(** The two providers, as functions of the action. *)
Inductive Variant : Type := Full | Draft.

Definition step_of (v : Variant) (JSON_stringify : list Product → string) (api : Api)
    (a : Action) (w : World) : Completion unit * World :=
  match v with
  | Full => UseCart.step JSON_stringify api a w
  | Draft => Part000.step JSON_stringify api a w
  end.

(** The draft decides like [UseCart], except that its
    [updateProductAmount] does nothing. *)
Definition verdict_of (v : Variant) (api : Api) (a : Action) (cart : list Product) : Verdict :=
  match v, a with
  | Draft, Update _ _ => Silent
  | _, _ => verdict api a cart
  end.

Definition queries_of (v : Variant) (api : Api) (a : Action) (cart : list Product)
    : list Request :=
  match v, a with
  | Draft, Update _ _ => []
  | _, _ => queries api a cart
  end.

(** The bookkeeping of the persistence effect concerns [UseCart] only. *)
Definition settled_for (v : Variant) (w : World) : Prop :=
  match v with
  | Full => settled w
  | Draft => True
  end.

(** What a step leaves behind, for each verdict. *)
Definition outcome (JSON_stringify : list Product → string) (v : Variant)
    (w w' : World) (d : Verdict) : Prop :=
  match d with
  | Commit updatedCart =>
      cart_list w' = updatedCart ∧ ref (cartState w') ≠ ref (cartState w) ∧
      toasts w' = toasts w ∧
      (settled_for v w →
       localStorage w' = Some (JSON_stringify updatedCart) ∧
       setItemCalls w' = JSON_stringify updatedCart :: setItemCalls w ∧
       settled_for v w')
  | Notify n =>
      cartState w' = cartState w ∧ heap w' = heap w ∧ toasts w' = n :: toasts w ∧
      localStorage w' = localStorage w ∧ setItemCalls w' = setItemCalls w ∧
      (settled_for v w → settled_for v w')
  | Silent => w' = w
  end.

(** The worlds a provider can be in: mounted on some snapshot, then driven
    by any actions against any answers of the collaborators. *)
Definition mount_of (v : Variant) (JSON_stringify : list Product → string)
    (entries : list Product) (stored : option string) : World :=
  match v with
  | Full => UseCart.mount JSON_stringify entries stored
  | Draft => Part000.mount entries stored
  end.

Inductive reachable (v : Variant) (JSON_stringify : list Product → string) : World → Prop :=
| reachable_mount (entries : list Product) (stored : option string) :
    reachable v JSON_stringify (mount_of v JSON_stringify entries stored)
| reachable_step (api : Api) (a : Action) (w : World) :
    reachable v JSON_stringify w →
    reachable v JSON_stringify (step_of v JSON_stringify api a w).2.

(** ** Devices of the proofs *)

(** An array of references denotes a list of entries in a heap. *)
Definition denotes (h : gmap loc Product) (ls : list loc) (cart : list Product) : Prop :=
  Forall2 (λ l product, h !! l = Some product) ls cart.

(** A handler run from [w] refines a verdict [v] with requests [qs]: it
    returns normally, and the world it leaves is the one the verdict
    describes. *)
Definition refines (r : Completion unit * World) (w : World) (v : Verdict)
    (qs : list Request) : Prop :=
  ∃ w', r = (Normal tt, w') ∧
    requests w' = qs ++ requests w ∧
    prevCartRef w' = prevCartRef w ∧ effectDeps w' = effectDeps w ∧
    localStorage w' = localStorage w ∧ setItemCalls w' = setItemCalls w ∧
    wf_world w' ∧
    match v with
    | Commit updatedCart =>
        cart_list w' = updatedCart ∧ ref (cartState w') = fresh w ∧ toasts w' = toasts w
    | Notify n =>
        cartState w' = cartState w ∧ heap w' = heap w ∧ toasts w' = n :: toasts w
    | Silent => w' = w
    end.

(** The write that the draft performs inside its handlers, once [setCart]
    has received another array. *)
Definition persist_now (JSON_stringify : list Product → string) (before : Array)
    (w : World) : World :=
  if bool_decide (ref (cartState w) = ref before) then w
  else set_localStorage (JSON_stringify (cart_list w)) w.

(** Well-formedness can be checked by evaluation. *)
#[global] Instance wf_world_dec (w : World) : Decision (wf_world w).
Proof.
  refine (cast_if (decide (NoDup (items (cartState w)) ∧
                           Forall (λ l, is_Some (heap w !! l)) (items (cartState w)) ∧
                           map_Forall (λ l _, (l < fresh w)%nat) (heap w) ∧
                           (ref (cartState w) < fresh w)%nat))).
  - destruct a as (Hnd & Hall & Hheap & Hcart).
    constructor; [done|done| |done].
    intros l [product Hl]. exact (Hheap l product Hl).
  - intros [Hnd Hall Hheap Hcart]. apply n. split_and!; [done|done| |done].
    intros l product Hl. apply Hheap. by exists product.
Defined.

#[global] Instance Array_eq_dec : EqDecision Array.
Proof. solve_decision. Defined.

#[global] Instance settled_dec (w : World) : Decision (settled w).
Proof. unfold settled. solve_decision. Defined.

(** ** Two properties as the design states them *)

(** "No operation ever throws to its caller or leaves the canonical list in
    a partially-mutated state", with collaborator failure covering network
    errors and malformed responses. *)
Definition failures_leave_cart_as_designed : Prop :=
  ∀ (v : Variant) (JSON_stringify : list Product → string) (api : Api)
    (a : Action) (w : World),
    wf_world w →
    ∃ w', step_of v JSON_stringify api a w = (Normal tt, w') ∧
          (failure_as_designed api a w w' → cart_list w' = cart_list w).

(** "At most one CartEntry per product id", kept by every operation under
    any answer of the collaborators. *)
Definition uniqueness_under_any_outcome : Prop :=
  ∀ (v : Variant) (JSON_stringify : list Product → string) (api : Api)
    (a : Action) (w : World),
    wf_world w → unique_ids (cart_list w) →
    unique_ids (cart_list (step_of v JSON_stringify api a w).2).

(** ** Sample data *)

Definition shoe (productId a : Z) : Product :=
  mkProduct productId "Tenis" (1799 # 10) "shoe.jpg" a.

(** A stand-in for [JSON.stringify] that keeps ids and amounts. *)
Fixpoint sample_stringify (cart : list Product) : string :=
  match cart with
  | [] => "."
  | product :: rest =>
      String (Ascii.ascii_of_N (Z.to_N (id product)))
        (String (Ascii.ascii_of_N (Z.to_N (amount product))) (sample_stringify rest))
  end.

(** Stock of five for every product; the catalog knows every id. *)
Definition sample_api : Api :=
  mkApi (λ _, Resolved (Amount 5)) (λ productId, Resolved (shoe productId 0)).

(** A stock service that answers without an amount. *)
Definition empty_stock_api : Api :=
  mkApi (λ _, Resolved NoAmount) (λ productId, Resolved (shoe productId 0)).

(** A stock service that is unreachable. *)
Definition offline_api : Api :=
  mkApi (λ _, Rejected) (λ productId, Resolved (shoe productId 0)).

(** A catalog that answers every lookup with product 1. *)
Definition confused_api : Api :=
  mkApi (λ _, Resolved (Amount 5)) (λ _, Resolved (shoe 1 0)).

Definition sample_world (entries : list Product) : World :=
  UseCart.mount sample_stringify entries None.

(** ** Initialisation and runs *)

(** [if (storagedCart)]: a string is truthy unless it is empty. *)
Definition truthy (s : string) : bool := bool_decide (s ≠ "").

(** The [useState] initialiser of both files.  [localStorage.getItem]
    answers null when nothing is stored under the key.  [JSON.parse] belongs
    to the platform: [None] stands for the SyntaxError it raises on a text
    that is not JSON; its result is taken at the type of the state,
    [Product[]]. *)
Definition initial_cart (JSON_parse : string → option (list Product))
    (stored : option string) : Completion (list Product) :=
  match stored with
  | Some storagedCart =>
      if truthy storagedCart then
        match JSON_parse storagedCart with
        | Some cart => Normal cart
        | None => Thrown
        end
      else Normal []
  | None => Normal []
  end.

(** Loading the page: the initialiser runs (nothing catches what it raises),
    then the provider is mounted on its result. *)
Definition start (v : Variant) (JSON_parse : string → option (list Product))
    (JSON_stringify : list Product → string) (stored : option string) : Completion World :=
  match initial_cart JSON_parse stored with
  | Normal entries => Normal (mount_of v JSON_stringify entries stored)
  | Thrown => Thrown
  end.

(** A session: actions handled one after the other, each against the
    answers the collaborators give at that time. *)
Definition run (v : Variant) (JSON_stringify : list Product → string)
    (script : list (Api * Action)) (w : World) : World :=
  fold_left (λ w s, (step_of v JSON_stringify s.1 s.2 w).2) script w.

(** Every entry has an amount above 0: what the guard [amount <= 0] of
    [updateProductAmount] lets through. *)
Definition amounts_positive (cart : list Product) : Prop :=
  Forall (λ product, 0 < amount product) cart.

(** A stand-in for [JSON.parse] that reads back [sample_stringify] on carts
    of [shoe]s. *)
Fixpoint sample_parse (s : string) : option (list Product) :=
  match s with
  | String c EmptyString =>
      if bool_decide (String c EmptyString = ".") then Some [] else None
  | String i (String a rest) =>
      match sample_parse rest with
      | Some cart =>
          Some (shoe (Z.of_N (Ascii.N_of_ascii i)) (Z.of_N (Ascii.N_of_ascii a)) :: cart)
      | None => None
      end
  | EmptyString => None
  end.

(** Every entry is within the stock that a collaborator reports for its
    product, where it reports a number. *)
Definition within_stock (api : Api) (cart : list Product) : Prop :=
  Forall (λ product, ∀ s, stock_of api (id product) = Resolved (Amount s) →
                          amount product <= s) cart.

(** The amounts [n] for which the double sum [n + 1] of [addProduct] is the
    integer [n + 1]: every integer of this range and its successor are
    doubles.  (From 2^53 on the sum is rounded: 2^53 + 1 is 2^53.) *)
Definition increment_exact (n : Z) : Prop := - 2 ^ 53 <= n < 2 ^ 53.

(** * Verification *)

(** ** Arrays: [find], [findIndex], [splice] *)

Section ArrayFacts.
Context {A : Type} (f : A → bool).

Lemma find_first (k1 k2 : list A) (x : A) :
  Forall (λ y, f y = false) k1 → f x = true → find f (k1 ++ x :: k2) = Some x.
Proof.
  induction 1 as [|y k1 Hy _ IH]; intros Hx; simpl.
  - by rewrite Hx.
  - rewrite Hy. by apply IH.
Qed.

Lemma find_Some_split (xs : list A) (x : A) :
  find f xs = Some x →
  ∃ k1 k2, xs = k1 ++ x :: k2 ∧ Forall (λ y, f y = false) k1 ∧ f x = true.
Proof.
  induction xs as [|y xs IH]; simpl; [done|].
  destruct (f y) eqn:Hy.
  - intros [= ->]. by exists [], xs.
  - intros (k1 & k2 & -> & Hk & Hx)%IH.
    exists (y :: k1), k2. split_and!; [done| by constructor |done].
Qed.

Lemma find_None (xs : list A) :
  find f xs = None ↔ Forall (λ y, f y = false) xs.
Proof.
  induction xs as [|y xs IH]; simpl.
  - split; [constructor|done].
  - destruct (f y) eqn:Hy.
    + split; [done|]. inversion 1; congruence.
    + rewrite IH. split; [by constructor|]. by inversion 1.
Qed.

Lemma findIndex_from_first (k1 k2 : list A) (x : A) (i : Z) :
  Forall (λ y, f y = false) k1 → f x = true →
  findIndex_from f (k1 ++ x :: k2) i = i + Z.of_nat (length k1).
Proof.
  intros Hk Hx. revert i.
  induction Hk as [|y k1 Hy _ IH]; intros i; simpl.
  - rewrite Hx. lia.
  - rewrite Hy, IH. lia.
Qed.

Lemma findIndex_from_None (xs : list A) (i : Z) :
  Forall (λ y, f y = false) xs → findIndex_from f xs i = -1.
Proof.
  intros Hxs. revert i.
  induction Hxs as [|y xs Hy _ IH]; intros i; simpl; [done|].
  by rewrite Hy.
Qed.

Lemma splice_first (k1 k2 : list A) (x : A) :
  splice (Z.of_nat (length k1)) 1 (k1 ++ x :: k2) = k1 ++ k2.
Proof.
  unfold splice. rewrite Nat2Z.id.
  rewrite take_app_length.
  rewrite drop_app_ge by lia.
  replace (length k1 + 1 - length k1)%nat with 1%nat by lia.
  done.
Qed.

End ArrayFacts.

(** ** Arrays read through the heap *)

Lemma view_denotes (h : gmap loc Product) (ls : list loc) :
  Forall (λ l, is_Some (h !! l)) ls → denotes h ls (omap (λ l, h !! l) ls).
Proof.
  induction 1 as [|l ls [product Hl] _ IH]; simpl.
  - constructor.
  - rewrite Hl. by constructor.
Qed.

Lemma denotes_view (h : gmap loc Product) (ls : list loc) (cart : list Product) :
  denotes h ls cart → omap (λ l, h !! l) ls = cart.
Proof.
  induction 1 as [|l product ls cart Hl _ IH]; simpl; [done|].
  rewrite Hl. f_equal. exact IH.
Qed.

Lemma denotes_allocated (h : gmap loc Product) (ls : list loc) (cart : list Product) :
  denotes h ls cart → Forall (λ l, is_Some (h !! l)) ls.
Proof. induction 1; constructor; eauto. Qed.

Lemma denotes_has_id (h : gmap loc Product) (productId : Z) (l : loc) (product : Product) :
  h !! l = Some product → has_id h productId l = same_id productId product.
Proof. intros Hl. unfold has_id. by rewrite Hl. Qed.

Lemma find_denotes (h : gmap loc Product) (productId : Z) (ls : list loc) (cart : list Product) :
  denotes h ls cart →
  match find (has_id h productId) ls with
  | Some l => ∃ product, h !! l = Some product ∧ first_with_id productId cart = Some product
  | None => first_with_id productId cart = None
  end.
Proof.
  unfold first_with_id.
  induction 1 as [|l product ls cart Hl _ IH]; simpl; [done|].
  rewrite (denotes_has_id _ _ _ _ Hl).
  destruct (same_id productId product); [by exists product | done].
Qed.

Lemma findIndex_denotes (h : gmap loc Product) (productId : Z) (ls : list loc)
    (cart : list Product) (i : Z) :
  denotes h ls cart →
  findIndex_from (has_id h productId) ls i = findIndex_from (same_id productId) cart i.
Proof.
  intros Hd. revert i.
  induction Hd as [|l product ls cart Hl _ IH]; intros i; simpl; [done|].
  rewrite (denotes_has_id _ _ _ _ Hl).
  by destruct (same_id productId product).
Qed.

(** Writing to an object that an array does not hold leaves what the array
    denotes as it was. *)
Lemma denotes_insert_other (h : gmap loc Product) (ls : list loc) (cart : list Product)
    (l : loc) (product : Product) :
  l ∉ ls → denotes h ls cart → denotes (<[l := product]> h) ls cart.
Proof.
  intros Hl Hd. induction Hd as [|l' product' ls cart Hl' _ IH]; [constructor|].
  apply not_elem_of_cons in Hl as [Hne Hl].
  constructor; [|by apply IH].
  by rewrite lookup_insert_ne.
Qed.

(** [productExists.amount = a] changes exactly the first entry with the id,
    because no object occurs twice in the array. *)
Lemma assign_denotes (h : gmap loc Product) (productId a : Z) (ls : list loc)
    (cart : list Product) (l : loc) (product : Product) :
  NoDup ls → denotes h ls cart →
  find (has_id h productId) ls = Some l → h !! l = Some product →
  denotes (<[l := with_amount a product]> h) ls (assign_first productId a cart).
Proof.
  intros Hnd Hd. revert Hnd.
  induction Hd as [|l' product' ls cart Hl' Hd IH]; intros Hnd Hfind Hl; simpl in *; [done|].
  apply NoDup_cons in Hnd as [Hnotin Hnd].
  rewrite (denotes_has_id _ _ _ _ Hl') in Hfind.
  destruct (same_id productId product') eqn:Hid.
  - injection Hfind as ->. assert (product' = product) as -> by congruence.
    constructor; [by rewrite lookup_insert_eq|].
    by apply denotes_insert_other.
  - assert (l ≠ l') as Hne.
    { intros ->. apply find_Some_split in Hfind as (k1 & k2 & -> & _ & _).
      apply Hnotin. set_solver. }
    constructor; [by rewrite lookup_insert_ne | by apply IH].
Qed.

Lemma splice_denotes (h : gmap loc Product) (ls : list loc) (cart : list Product)
    (start : Z) (deleteCount : nat) :
  denotes h ls cart → denotes h (splice start deleteCount ls) (splice start deleteCount cart).
Proof.
  intros Hd. unfold splice, denotes.
  apply Forall2_app; [by apply Forall2_take | by apply Forall2_drop].
Qed.

Lemma push_denotes (h : gmap loc Product) (ls : list loc) (cart : list Product)
    (l : loc) (product : Product) :
  denotes h ls cart → h !! l = Some product → denotes h (ls ++ [l]) (cart ++ [product]).
Proof.
  intros Hd Hl. apply Forall2_app; [done|]. by repeat constructor.
Qed.

Lemma splice_sublist {A} (start : Z) (deleteCount : nat) (xs : list A) :
  splice start deleteCount xs `sublist_of` xs.
Proof.
  unfold splice.
  rewrite <- (take_drop (Z.to_nat start) xs) at 3.
  apply sublist_app; [done|].
  rewrite <- drop_drop. apply sublist_drop.
Qed.

(** ** The handlers of [UseCart] refine their reading on lists *)

Lemma cart_denotes (w : World) :
  wf_world w → denotes (heap w) (items (cartState w)) (cart_list w).
Proof. intros Hwf. apply view_denotes, Hwf. Qed.

Lemma wf_add_toast (n : Notification) (w : World) : wf_world w → wf_world (add_toast n w).
Proof. intros [? ? ? ?]. by constructor. Qed.

Lemma wf_add_request (r : Request) (w : World) : wf_world w → wf_world (add_request r w).
Proof. intros [? ? ? ?]. by constructor. Qed.

Lemma wf_set_fresh (n : nat) (w : World) :
  (fresh w ≤ n)%nat → wf_world w → wf_world (set_fresh n w).
Proof.
  intros Hn [Hnd Hall Hheap Hcart]. constructor; simpl; try done.
  - intros l Hl. specialize (Hheap l Hl). lia.
  - lia.
Qed.

(** Projections of updated worlds. *)
Ltac wsimpl :=
  cbn [heap fresh cartState prevCartRef effectDeps localStorage setItemCalls toasts
       requests set_heap set_fresh set_cartState set_prevCartRef set_effectDeps
       set_localStorage add_toast add_request ref items array_push array_splice
       ret throw toast_error setCart] in *.

Ltac wf_frame :=
  repeat first [apply wf_add_toast | apply wf_add_request
               | apply wf_set_fresh; [cbn; lia|]]; try done.

Lemma insert_below (h : gmap loc Product) (l : loc) (product : Product) (n m : nat) :
  (∀ l', is_Some (h !! l') → (l' < n)%nat) → (l < m)%nat → (n ≤ m)%nat →
  ∀ l', is_Some (<[l := product]> h !! l') → (l' < m)%nat.
Proof.
  intros Hh Hl Hnm l' Hl'.
  apply lookup_insert_is_Some in Hl' as [<-|[_ Hl']]; [done|].
  specialize (Hh l' Hl'). lia.
Qed.

Lemma fresh_not_in_cart (w : World) (n : nat) :
  wf_world w → (fresh w ≤ n)%nat → n ∉ items (cartState w).
Proof.
  intros [_ Hall Hheap _] Hn Hin.
  rewrite Forall_forall in Hall. specialize (Hheap n (Hall n Hin)). lia.
Qed.

(** Symbolic execution of the first statements of a handler body. *)
Lemma bind_spread {B} (a : Array) (k : Array → Js B) (w : World) :
  bind (spread a) k w = k (mkArray (fresh w) (items a)) (set_fresh (S (fresh w)) w).
Proof. reflexivity. Qed.

Lemma bind_array_find {B} (productId : Z) (a : Array) (k : option loc → Js B) (w : World) :
  bind (array_find productId a) k w = k (find (has_id (heap w) productId) (items a)) w.
Proof. reflexivity. Qed.

Lemma bind_array_findIndex {B} (productId : Z) (a : Array) (k : Z → Js B) (w : World) :
  bind (array_findIndex productId a) k w
  = k (findIndex (has_id (heap w) productId) (items a)) w.
Proof. reflexivity. Qed.

Lemma bind_stock_reading {B} (api : Api) (productId : Z) (k : option Z → Js B) (w : World) :
  bind (await (GetStock productId) (stock_of api productId))
       (λ stock, bind (data_amount stock) k) w
  = match stock_reading (stock_of api productId) with
    | Some stockAmount => k stockAmount (add_request (GetStock productId) w)
    | None => (Thrown, add_request (GetStock productId) w)
    end.
Proof.
  unfold bind, await, data_amount, stock_reading.
  by destruct (stock_of api productId) as [|[| |?]].
Qed.

Lemma addProduct_refines (api : Api) (productId : Z) (w : World) :
  wf_world w →
  refines (UseCart.addProduct api (cartState w) productId w) w
          (add_verdict api productId (cart_list w))
          (queries api (Add productId) (cart_list w)).
Proof.
  intros Hwf.
  pose proof (cart_denotes w Hwf) as Hd.
  pose proof (find_denotes (heap w) productId _ _ Hd) as Hfind.
  unfold UseCart.addProduct, add_verdict, queries, current_amount, refines, try_catch.
  rewrite bind_spread. cbv beta.
  rewrite bind_array_find. cbv beta.
  rewrite bind_stock_reading. wsimpl.
  destruct (stock_reading (stock_of api productId)) as [stockAmount|]; wsimpl; cycle 1.
  { eexists. split; [reflexivity|]. wsimpl. split_and!; try done. wf_frame. }
  unfold bind, read, assign_amount, await, new_object. wsimpl.
  destruct (find (has_id (heap w) productId) (items (cartState w))) as [l|] eqn:Hf.
  - destruct Hfind as (product & Hl & Hfirst). wsimpl. rewrite Hfirst, Hl. simpl.
    destruct (js_gt (amount product + 1) stockAmount); wsimpl.
    { eexists. split; [reflexivity|]. wsimpl. split_and!; try done. wf_frame. }
    rewrite Hl.
    pose proof (assign_denotes _ _ (amount product + 1) _ _ _ _
                  (wf_nodup _ Hwf) Hd Hf Hl) as Hd'.
    eexists. split; [reflexivity|]. wsimpl. split_and!; try done.
    + constructor; wsimpl; [apply Hwf | by eapply denotes_allocated | | lia].
      eapply insert_below; [apply Hwf | | lia].
      pose proof (wf_heap_fresh _ Hwf l (mk_is_Some _ _ Hl)). lia.
    + by apply denotes_view.
  - wsimpl. rewrite Hfind. simpl.
    destruct (js_gt _ stockAmount); wsimpl.
    { eexists. split; [reflexivity|]. wsimpl. split_and!; try done. wf_frame. }
    destruct (product_of api productId) as [|product]; wsimpl.
    { eexists. split; [reflexivity|]. wsimpl. split_and!; try done. wf_frame. }
    assert (denotes (<[S (fresh w) := with_amount 1 product]> (heap w))
                    (items (cartState w) ++ [S (fresh w)])
                    (cart_list w ++ [with_amount 1 product])) as Hd'.
    { apply push_denotes; [|by rewrite lookup_insert_eq].
      apply denotes_insert_other; [|done].
      apply fresh_not_in_cart; [done|lia]. }
    eexists. split; [reflexivity|]. wsimpl. split_and!; try done.
    + constructor; wsimpl; [ | by eapply denotes_allocated | | lia].
      * apply NoDup_app. split_and!; [apply Hwf | | apply NoDup_singleton].
        intros l Hl ->%list_elem_of_singleton.
        by eapply (fresh_not_in_cart w (S (fresh w))); [|lia|].
      * eapply insert_below; [apply Hwf | lia | lia].
    + by apply denotes_view.
Qed.

Lemma removeProduct_refines (api : Api) (productId : Z) (w : World) :
  wf_world w →
  refines (UseCart.removeProduct (cartState w) productId w) w
          (remove_verdict productId (cart_list w))
          (queries api (Remove productId) (cart_list w)).
Proof.
  intros Hwf.
  pose proof (cart_denotes w Hwf) as Hd.
  unfold UseCart.removeProduct, remove_verdict, queries, refines, try_catch.
  rewrite bind_spread. cbv beta.
  rewrite bind_array_findIndex. cbv beta. wsimpl.
  unfold findIndex. rewrite (findIndex_denotes _ _ _ _ 0 Hd).
  set (productIndex := findIndex_from (same_id productId) (cart_list w) 0).
  destruct (bool_decide (productIndex >= 0)); wsimpl.
  - pose proof (splice_denotes _ _ _ productIndex 1 Hd) as Hd'.
    eexists. split; [reflexivity|]. wsimpl. split_and!; try done.
    + constructor; wsimpl; [ | by eapply denotes_allocated | | lia].
      * eapply sublist_NoDup; [apply Hwf | apply splice_sublist].
      * intros l Hl. pose proof (wf_heap_fresh _ Hwf l Hl). lia.
    + by apply denotes_view.
  - eexists. split; [reflexivity|]. wsimpl. split_and!; try done. wf_frame.
Qed.

Lemma updateProductAmount_refines (api : Api) (productId a : Z) (w : World) :
  wf_world w →
  refines (UseCart.updateProductAmount api (cartState w) productId a w) w
          (update_verdict api productId a (cart_list w))
          (queries api (Update productId a) (cart_list w)).
Proof.
  intros Hwf.
  pose proof (cart_denotes w Hwf) as Hd.
  pose proof (find_denotes (heap w) productId _ _ Hd) as Hfind.
  unfold UseCart.updateProductAmount, update_verdict, queries, refines, try_catch.
  destruct (bool_decide (a <= 0)).
  { exists w. by split_and!. }
  rewrite bind_stock_reading.
  destruct (stock_reading (stock_of api productId)) as [stockAmount|]; wsimpl; cycle 1.
  { eexists. split; [reflexivity|]. wsimpl. split_and!; try done. wf_frame. }
  destruct (js_gt a stockAmount); wsimpl.
  { eexists. split; [reflexivity|]. wsimpl. split_and!; try done. wf_frame. }
  rewrite bind_spread. cbv beta.
  rewrite bind_array_find. cbv beta. wsimpl.
  unfold bind, assign_amount. wsimpl.
  destruct (find (has_id (heap w) productId) (items (cartState w))) as [l|] eqn:Hf.
  - destruct Hfind as (product & Hl & Hfirst). wsimpl. rewrite Hfirst, Hl. wsimpl.
    pose proof (assign_denotes _ _ a _ _ _ _ (wf_nodup _ Hwf) Hd Hf Hl) as Hd'.
    eexists. split; [reflexivity|]. wsimpl. split_and!; try done.
    + constructor; wsimpl; [apply Hwf | by eapply denotes_allocated | | lia].
      eapply insert_below; [apply Hwf | | lia].
      pose proof (wf_heap_fresh _ Hwf l (mk_is_Some _ _ Hl)). lia.
    + by apply denotes_view.
  - wsimpl. rewrite Hfind.
    eexists. split; [reflexivity|]. wsimpl. split_and!; try done. wf_frame.
Qed.

Lemma handle_refines (api : Api) (a : Action) (w : World) :
  wf_world w →
  refines (UseCart.handle api (cartState w) a w) w
          (verdict api a (cart_list w)) (queries api a (cart_list w)).
Proof.
  destruct a as [productId|productId|productId a]; simpl.
  - apply addProduct_refines.
  - apply (removeProduct_refines api).
  - apply updateProductAmount_refines.
Qed.

(** ** A step of either provider *)

Lemma render_persists (JSON_stringify : list Product → string) (before : Array) (w : World) :
  prevCartRef w = Some before → fst <$> effectDeps w = Some (ref before) →
  ref (cartState w) ≠ ref before →
  ∃ d, UseCart.render JSON_stringify w =
       mkWorld (heap w) (fresh w) (cartState w) (Some (cartState w)) (Some (ref (cartState w), d))
               (Some (JSON_stringify (cart_list w)))
               (JSON_stringify (cart_list w) :: setItemCalls w) (toasts w) (requests w).
Proof.
  intros Hprev Hdeps Hne. unfold UseCart.render. wsimpl. rewrite Hprev. simpl.
  rewrite bool_decide_eq_false_2.
  - rewrite bool_decide_eq_true_2 by congruence. by eexists.
  - intros Heq. rewrite Heq in Hdeps. simpl in Hdeps. congruence.
Qed.

Lemma step_full (JSON_stringify : list Product → string) (api : Api) (a : Action) (w : World) :
  wf_world w →
  ∃ w', UseCart.step JSON_stringify api a w = (Normal tt, w') ∧
        wf_world w' ∧
        requests w' = queries api a (cart_list w) ++ requests w ∧
        outcome JSON_stringify Full w w' (verdict api a (cart_list w)).
Proof.
  intros Hwf.
  destruct (handle_refines api a w Hwf)
    as (w1 & Hrun & Hreq & Hprev & Hdeps & Hls & Hcalls & Hwf1 & Hv).
  unfold UseCart.step, UseCart.rerender. rewrite Hrun.
  destruct (verdict api a (cart_list w)) as [updatedCart|n|].
  - destruct Hv as (Hcart & Href & Htoasts).
    assert (ref (cartState w1) ≠ ref (cartState w)) as Hne.
    { pose proof (wf_cart_fresh _ Hwf). lia. }
    rewrite bool_decide_eq_false_2 by done.
    assert (heap (UseCart.render JSON_stringify w1) = heap w1 ∧
            fresh (UseCart.render JSON_stringify w1) = fresh w1 ∧
            cartState (UseCart.render JSON_stringify w1) = cartState w1 ∧
            toasts (UseCart.render JSON_stringify w1) = toasts w1 ∧
            requests (UseCart.render JSON_stringify w1) = requests w1) as (Hh & Hf & Hc & Ht & Hr).
    { unfold UseCart.render. by repeat case_bool_decide. }
    eexists. split; [reflexivity|]. split_and!.
    + destruct Hwf1 as [? ? ? ?]. constructor; by rewrite ?Hh, ?Hf, ?Hc.
    + by rewrite Hr.
    + simpl. unfold cart_list. rewrite Hh, Hc. split_and!; [done|done|congruence|].
      intros [Hs1 Hs2].
      destruct (render_persists JSON_stringify (cartState w) w1) as [d ->];
        [congruence|congruence|done|].
      unfold settled. cbn. rewrite Hcart, Hcalls. by split_and!.
  - destruct Hv as (Hcart & Hheap & Htoasts).
    rewrite bool_decide_eq_true_2 by congruence.
    eexists. split; [reflexivity|]. split_and!; [done|done|].
    simpl. split_and!; try done. unfold settled. by rewrite Hprev, Hdeps, Hcart.
  - subst w1. rewrite bool_decide_eq_true_2 by done.
    eexists. split; [reflexivity|]. by split_and!.
Qed.

(** The handlers of the draft are those of [UseCart] followed by the write
    to localStorage. *)
Lemma draft_addProduct (JSON_stringify : list Product → string) (api : Api)
    (productId : Z) (w : World) :
  wf_world w →
  Part000.addProduct JSON_stringify api (cartState w) productId w =
  match UseCart.addProduct api (cartState w) productId w with
  | (c, w') => (c, persist_now JSON_stringify (cartState w) w')
  end.
Proof.
  intros Hwf. pose proof (wf_cart_fresh _ Hwf) as Hlt.
  unfold Part000.addProduct, UseCart.addProduct, try_catch, persist_now.
  rewrite !bind_spread. cbv beta.
  rewrite !bind_array_find. cbv beta.
  rewrite !bind_stock_reading. wsimpl.
  destruct (stock_reading (stock_of api productId)) as [stockAmount|]; wsimpl;
    [|by rewrite bool_decide_eq_true_2].
  unfold bind, read, assign_amount, await, new_object, Part000.setItem. wsimpl.
  destruct (find (has_id (heap w) productId) (items (cartState w))) as [l|]; wsimpl.
  - destruct (heap w !! l) as [product|] eqn:Hl; wsimpl;
      [|by rewrite bool_decide_eq_true_2].
    destruct (js_gt _ stockAmount); wsimpl; [by rewrite bool_decide_eq_true_2|].
    rewrite Hl. wsimpl. rewrite bool_decide_eq_false_2 by lia. done.
  - destruct (js_gt _ stockAmount); wsimpl; [by rewrite bool_decide_eq_true_2|].
    destruct (product_of api productId) as [|product]; wsimpl;
      [by rewrite bool_decide_eq_true_2|].
    rewrite bool_decide_eq_false_2 by lia. done.
Qed.

Lemma draft_removeProduct (JSON_stringify : list Product → string)
    (productId : Z) (w : World) :
  wf_world w →
  Part000.removeProduct JSON_stringify (cartState w) productId w =
  match UseCart.removeProduct (cartState w) productId w with
  | (c, w') => (c, persist_now JSON_stringify (cartState w) w')
  end.
Proof.
  intros Hwf. pose proof (wf_cart_fresh _ Hwf) as Hlt.
  unfold Part000.removeProduct, UseCart.removeProduct, try_catch, persist_now.
  rewrite !bind_spread. cbv beta.
  rewrite !bind_array_findIndex. cbv beta. wsimpl.
  destruct (bool_decide (_ >= 0)); wsimpl; [|by rewrite bool_decide_eq_true_2].
  unfold bind, Part000.setItem. wsimpl.
  rewrite bool_decide_eq_false_2 by lia. done.
Qed.

Lemma wf_set_localStorage (v : string) (w : World) :
  wf_world w → wf_world (set_localStorage v w).
Proof. intros [? ? ? ?]. by constructor. Qed.

Lemma step_draft (JSON_stringify : list Product → string) (api : Api) (a : Action) (w : World) :
  wf_world w →
  ∃ w', Part000.step JSON_stringify api a w = (Normal tt, w') ∧
        wf_world w' ∧
        requests w' = queries_of Draft api a (cart_list w) ++ requests w ∧
        outcome JSON_stringify Draft w w' (verdict_of Draft api a (cart_list w)).
Proof.
  intros Hwf.
  assert (∀ b, (∀ productId amount, b ≠ Update productId amount) →
               Part000.handle JSON_stringify api (cartState w) b w =
               match UseCart.handle api (cartState w) b w with
               | (c, w') => (c, persist_now JSON_stringify (cartState w) w')
               end) as Hhandle.
  { intros [productId|productId|productId amount] Hb; simpl.
    - by apply draft_addProduct.
    - by apply draft_removeProduct.
    - by destruct (Hb productId amount). }
  assert ((∃ productId amount, a = Update productId amount) ∨
          (∀ productId amount, a ≠ Update productId amount)) as [(productId & amount & ->)|Ha].
  { destruct a; eauto. }
  { exists w. by split_and!. }
  replace (verdict_of Draft api a (cart_list w)) with (verdict api a (cart_list w))
    by (destruct a as [| |p q]; [done|done|by destruct (Ha p q)]).
  replace (queries_of Draft api a (cart_list w)) with (queries api a (cart_list w))
    by (destruct a as [| |p q]; [done|done|by destruct (Ha p q)]).
  destruct (handle_refines api a w Hwf)
    as (w1 & Hrun & Hreq & Hprev & Hdeps & Hls & Hcalls & Hwf1 & Hv).
  unfold Part000.step. rewrite (Hhandle a Ha), Hrun. unfold persist_now.
  destruct (verdict api a (cart_list w)) as [updatedCart|n|].
  - destruct Hv as (Hcart & Href & Htoasts).
    assert (ref (cartState w1) ≠ ref (cartState w)) as Hne.
    { pose proof (wf_cart_fresh _ Hwf). lia. }
    rewrite bool_decide_eq_false_2 by done.
    eexists. split; [reflexivity|]. split_and!.
    + by apply wf_set_localStorage.
    + done.
    + simpl. split_and!; try done. intros _. cbn. by rewrite Hcart, Hcalls.
  - destruct Hv as (Hcart & Hheap & Htoasts).
    rewrite bool_decide_eq_true_2 by congruence.
    eexists. split; [reflexivity|]. by split_and!.
  - subst w1. rewrite bool_decide_eq_true_2 by done.
    eexists. split; [reflexivity|]. by split_and!.
Qed.

(** The two providers at once. *)
Lemma step_spec (v : Variant) (JSON_stringify : list Product → string) (api : Api)
    (a : Action) (w : World) :
  wf_world w →
  ∃ w', step_of v JSON_stringify api a w = (Normal tt, w') ∧
        wf_world w' ∧
        requests w' = queries_of v api a (cart_list w) ++ requests w ∧
        outcome JSON_stringify v w w' (verdict_of v api a (cart_list w)).
Proof.
  destruct v; [apply step_full | apply step_draft].
Qed.

Lemma queried_app (w w' : World) (qs : list Request) :
  requests w' = qs ++ requests w → queried w w' = qs.
Proof.
  intros Hreq. unfold queried. rewrite Hreq, length_app.
  replace (length qs + length (requests w) - length (requests w))%nat
    with (length qs) by lia.
  apply take_app_length.
Qed.

(** ** Entries and ids *)

Lemma same_id_true (productId : Z) (product : Product) :
  same_id productId product = true ↔ id product = productId.
Proof. unfold same_id. by rewrite bool_decide_eq_true. Qed.

Lemma same_id_false (productId : Z) (product : Product) :
  same_id productId product = false ↔ id product ≠ productId.
Proof. unfold same_id. by rewrite bool_decide_eq_false. Qed.

Lemma other_ids (productId : Z) (cart : list Product) :
  Forall (λ product, id product ≠ productId) cart →
  Forall (λ product, same_id productId product = false) cart.
Proof.
  intros Hcart. eapply Forall_impl; [exact Hcart|].
  intros product. by rewrite same_id_false.
Qed.

Lemma first_with_id_found (productId : Z) (l1 l2 : list Product) (e : Product) :
  Forall (λ product, id product ≠ productId) l1 → id e = productId →
  first_with_id productId (l1 ++ e :: l2) = Some e.
Proof.
  intros Hl1 He. apply find_first; [by apply other_ids | by apply same_id_true].
Qed.

Lemma first_with_id_absent (productId : Z) (cart : list Product) :
  first_with_id productId cart = None ↔ Forall (λ product, id product ≠ productId) cart.
Proof.
  unfold first_with_id. rewrite find_None.
  apply Forall_proper; [|done]. intros product. apply same_id_false.
Qed.

Lemma first_with_id_split (productId : Z) (cart : list Product) (e : Product) :
  first_with_id productId cart = Some e →
  ∃ l1 l2, cart = l1 ++ e :: l2 ∧ Forall (λ product, id product ≠ productId) l1 ∧
           id e = productId.
Proof.
  intros (l1 & l2 & -> & Hl1 & He)%find_Some_split.
  exists l1, l2. split_and!; [done| |by apply same_id_true].
  eapply Forall_impl; [exact Hl1|]. intros product. by rewrite same_id_false.
Qed.

Lemma assign_first_found (productId a : Z) (l1 l2 : list Product) (e : Product) :
  Forall (λ product, id product ≠ productId) l1 → id e = productId →
  assign_first productId a (l1 ++ e :: l2) = l1 ++ with_amount a e :: l2.
Proof.
  intros Hl1 He. induction Hl1 as [|product l1 Hp _ IH]; simpl.
  - by rewrite (proj2 (same_id_true _ _) He).
  - by rewrite (proj2 (same_id_false _ _) Hp), IH.
Qed.

Lemma assign_first_ids (productId a : Z) (cart : list Product) :
  id <$> assign_first productId a cart = id <$> cart.
Proof.
  induction cart as [|product cart IH]; simpl; [done|].
  destruct (same_id productId product); simpl; [done|]. by f_equal.
Qed.

Lemma remove_found (productId : Z) (l1 l2 : list Product) (e : Product) :
  Forall (λ product, id product ≠ productId) l1 → id e = productId →
  remove_verdict productId (l1 ++ e :: l2) = Commit (l1 ++ l2).
Proof.
  intros Hl1 He. unfold remove_verdict, findIndex.
  rewrite findIndex_from_first; [|by apply other_ids|by apply same_id_true].
  rewrite bool_decide_eq_true_2 by lia.
  by rewrite Z.add_0_l, splice_first.
Qed.

Lemma remove_absent (productId : Z) (cart : list Product) :
  first_with_id productId cart = None →
  remove_verdict productId cart = Notify RemoveFailed.
Proof.
  intros Hcart%find_None. unfold remove_verdict, findIndex.
  rewrite findIndex_from_None by done. by rewrite bool_decide_eq_false_2 by lia.
Qed.

(** Under the uniqueness invariant the entry with a given id is the first
    one with that id. *)
Lemma unique_ids_first (productId : Z) (l1 l2 : list Product) (e : Product) :
  unique_ids (l1 ++ e :: l2) → id e = productId →
  Forall (λ product, id product ≠ productId) l1.
Proof.
  unfold unique_ids. rewrite fmap_app, fmap_cons.
  intros (_ & Hdisjoint & _)%NoDup_app He.
  apply Forall_forall. intros product Hproduct Hid.
  apply (Hdisjoint (id product)); [by apply list_elem_of_fmap_2|].
  rewrite Hid, <- He. set_solver.
Qed.

Lemma same_cart_list (w w' : World) :
  cartState w' = cartState w → heap w' = heap w → cart_list w' = cart_list w.
Proof. intros Hc Hh. unfold cart_list. by rewrite Hc, Hh. Qed.

(** ** Uniqueness of ids *)

Lemma verdict_unique_ids (api : Api) (a : Action) (cart updatedCart : list Product) :
  catalog_faithful api → unique_ids cart →
  verdict api a cart = Commit updatedCart → unique_ids updatedCart.
Proof.
  unfold unique_ids. intros Hapi Hcart.
  destruct a as [productId|productId|productId a]; simpl.
  - unfold add_verdict.
    destruct (stock_reading (stock_of api productId)) as [stockAmount|]; [|done].
    destruct (js_gt _ stockAmount); [done|].
    destruct (first_with_id productId cart) as [e|] eqn:Hfirst.
    + intros [= <-]. by rewrite assign_first_ids.
    + destruct (product_of api productId) as [|product] eqn:Hproduct; [done|].
      intros [= <-]. rewrite fmap_app. simpl.
      apply NoDup_app. split_and!; [done| |apply NoDup_singleton].
      intros i Hi ->%list_elem_of_singleton.
      apply list_elem_of_fmap in Hi as (entry & Hid & Hentry).
      apply first_with_id_absent in Hfirst.
      rewrite Forall_forall in Hfirst. apply (Hfirst entry Hentry).
      rewrite <- Hid. simpl. by apply Hapi.
  - unfold remove_verdict. case_bool_decide; [|done].
    intros [= <-]. eapply sublist_NoDup; [exact Hcart|].
    apply fmap_sublist, splice_sublist.
  - unfold update_verdict. case_bool_decide; [done|].
    destruct (stock_reading (stock_of api productId)) as [stockAmount|]; [|done].
    destruct (js_gt _ stockAmount); [done|].
    destruct (first_with_id productId cart); [|done].
    intros [= <-]. by rewrite assign_first_ids.
Qed.

(** ** Failures *)

Lemma stock_exceeded_notifies (api : Api) (a : Action) (cart : list Product) :
  stock_exceeded api a cart → ∃ n, verdict api a cart = Notify n.
Proof.
  destruct a as [productId|productId|productId a]; simpl; [|done|].
  - intros (s & Hstock & Hs). unfold add_verdict. rewrite Hstock. simpl.
    rewrite bool_decide_eq_true_2 by lia. by eexists.
  - intros (Ha & s & Hstock & Hs). unfold update_verdict.
    rewrite bool_decide_eq_false_2, Hstock by lia. simpl.
    rewrite bool_decide_eq_true_2 by lia. by eexists.
Qed.

Lemma target_absent_notifies (api : Api) (a : Action) (cart : list Product) :
  target_absent a cart → ∃ n, verdict api a cart = Notify n.
Proof.
  destruct a as [productId|productId|productId a]; simpl; [done| |].
  - intros Habsent. rewrite remove_absent by done. by eexists.
  - intros (Ha & Habsent). unfold update_verdict.
    rewrite bool_decide_eq_false_2, Habsent by lia.
    destruct (stock_reading _) as [stockAmount|]; [|by eexists].
    destruct (js_gt _ _); by eexists.
Qed.

Lemma stock_read_not_failed (api : Api) (productId : Z) (stockAmount : option Z) :
  stock_reading (stock_of api productId) = Some stockAmount →
  ¬ rejected_or_no_data api (GetStock productId).
Proof.
  simpl. intros Hread [Hstock|Hstock]; by rewrite Hstock in Hread.
Qed.

Lemma rejected_request_notifies (api : Api) (a : Action) (cart : list Product) :
  Exists (rejected_or_no_data api) (queries api a cart) →
  ∃ n, verdict api a cart = Notify n.
Proof.
  destruct a as [productId|productId|productId a]; simpl.
  - unfold add_verdict.
    destruct (stock_reading (stock_of api productId)) as [stockAmount|] eqn:Hread;
      [|by eexists].
    pose proof (stock_read_not_failed _ _ _ Hread) as Hok.
    destruct (first_with_id productId cart) as [e|].
    + rewrite Exists_cons, Exists_nil. by intros [?|[]].
    + destruct (js_gt _ stockAmount); [by eexists|].
      rewrite !Exists_cons, Exists_nil. intros [Hproduct|[?|[]]]; [|done].
      simpl in Hproduct. rewrite Hproduct. by eexists.
  - by intros ?%Exists_nil.
  - unfold update_verdict. case_bool_decide; [by intros ?%Exists_nil|].
    rewrite Exists_cons, Exists_nil. simpl.
    intros [[Hstock|Hstock]|[]]; rewrite Hstock; by eexists.
Qed.

(** ** Reachable worlds *)

Lemma new_objects_spec (entries : list Product) (w : World) :
  (∀ l, is_Some (heap w !! l) → (l < fresh w)%nat) →
  ∃ ls w', new_objects entries w = (Normal ls, w') ∧
    denotes (heap w') ls entries ∧ NoDup ls ∧
    Forall (λ l, (fresh w ≤ l)%nat) ls ∧
    (∀ l, is_Some (heap w' !! l) → (l < fresh w')%nat) ∧
    (fresh w ≤ fresh w')%nat ∧
    (∀ l, (l < fresh w)%nat → heap w' !! l = heap w !! l) ∧
    cartState w' = cartState w ∧ prevCartRef w' = prevCartRef w ∧
    effectDeps w' = effectDeps w ∧ localStorage w' = localStorage w ∧
    setItemCalls w' = setItemCalls w ∧ toasts w' = toasts w ∧ requests w' = requests w.
Proof.
  revert w. induction entries as [|product entries IH]; intros w Hheap.
  - exists [], w. split_and!; try done; constructor.
  - simpl. unfold bind at 1. unfold new_object at 1.
    set (w1 := set_fresh (S (fresh w)) (set_heap (<[fresh w := product]> (heap w)) w)).
    destruct (IH w1) as (ls & w' & Hrun & Hd & Hnd & Hge & Hheap' & Hle & Hframe & Hrest).
    { subst w1. wsimpl. eapply insert_below; [exact Hheap|lia|lia]. }
    unfold bind. rewrite Hrun. subst w1. wsimpl.
    exists (fresh w :: ls), w'. split_and!; try done.
    + constructor; [|done]. rewrite Hframe by lia. by rewrite lookup_insert_eq.
    + constructor; [|done]. intros Hin.
      rewrite Forall_forall in Hge. specialize (Hge _ Hin). lia.
    + constructor; [lia|]. eapply Forall_impl; [exact Hge|]. simpl. lia.
    + lia.
    + intros l Hl. rewrite Hframe by lia. rewrite lookup_insert_ne by lia. done.
    + apply Hrest.
    + apply Hrest.
    + apply Hrest.
    + apply Hrest.
    + apply Hrest.
    + apply Hrest.
    + apply Hrest.
Qed.

(** Mounting [UseCart] yields a well-formed, settled world whose cart list
    is the parsed snapshot and whose store is untouched. *)
Lemma mount_invariants (JSON_stringify : list Product → string) (entries : list Product)
    (stored : option string) :
  wf_world (UseCart.mount JSON_stringify entries stored) ∧
  settled (UseCart.mount JSON_stringify entries stored) ∧
  cart_list (UseCart.mount JSON_stringify entries stored) = entries ∧
  localStorage (UseCart.mount JSON_stringify entries stored) = stored ∧
  setItemCalls (UseCart.mount JSON_stringify entries stored) = [].
Proof.
  destruct (new_objects_spec entries (blank stored))
    as (ls & w' & Hrun & Hd & Hnd & Hge & Hheap & Hle & _ &
        Hc & Hprev & Hdeps & Hls & Hcalls & _).
  { intros l [product Hl]. simpl in Hl. by rewrite lookup_empty in Hl. }
  simpl in Hprev, Hdeps, Hls, Hcalls.
  assert (UseCart.mount JSON_stringify entries stored =
          mkWorld (heap w') (S (fresh w')) (mkArray (fresh w') ls)
                  (Some (mkArray (fresh w') ls)) (Some (fresh w', fresh w'))
                  stored [] (toasts w') (requests w')) as ->.
  { unfold UseCart.mount, bind. rewrite Hrun.
    unfold new_array, setCart, UseCart.render. wsimpl.
    rewrite Hprev, Hdeps. simpl.
    rewrite bool_decide_eq_false_2 by (by intros []).
    unfold set_effectDeps, set_prevCartRef, set_cartState, set_fresh. simpl.
    by rewrite Hls, Hcalls. }
  split_and!; try done.
  - constructor; simpl; [done|by eapply denotes_allocated| |lia].
    intros l Hl. specialize (Hheap l Hl). lia.
  - unfold cart_list, view. simpl. by apply denotes_view.
Qed.

(** Both invariants are kept by every step. *)
Lemma step_invariants (v : Variant) (JSON_stringify : list Product → string)
    (api : Api) (a : Action) (w : World) :
  wf_world w → settled_for v w →
  wf_world (step_of v JSON_stringify api a w).2 ∧
  settled_for v (step_of v JSON_stringify api a w).2.
Proof.
  intros Hwf Hsettled.
  destruct (step_spec v JSON_stringify api a w Hwf) as (w' & -> & Hwf' & _ & Hout).
  split; [done|]. simpl.
  destruct (verdict_of v api a (cart_list w)); simpl in Hout.
  - destruct Hout as (_ & _ & _ & Hp). by destruct (Hp Hsettled) as (_ & _ & ?).
  - destruct Hout as (_ & _ & _ & _ & _ & Hp). by apply Hp.
  - by subst.
Qed.

Lemma mount_draft_invariants (entries : list Product) (stored : option string) :
  wf_world (Part000.mount entries stored) ∧
  cart_list (Part000.mount entries stored) = entries ∧
  localStorage (Part000.mount entries stored) = stored.
Proof.
  destruct (new_objects_spec entries (blank stored))
    as (ls & w' & Hrun & Hd & Hnd & Hge & Hheap & Hle & _ &
        Hc & Hprev & Hdeps & Hls & Hcalls & _).
  { intros l [product Hl]. simpl in Hl. by rewrite lookup_empty in Hl. }
  simpl in Hls.
  assert (Part000.mount entries stored =
          set_cartState (mkArray (fresh w') ls) (set_fresh (S (fresh w')) w')) as ->.
  { unfold Part000.mount, bind. by rewrite Hrun. }
  split_and!; try done.
  - constructor; simpl; [done|by eapply denotes_allocated| |lia].
    intros l Hl. specialize (Hheap l Hl). lia.
  - unfold cart_list, view. simpl. by apply denotes_view.
Qed.

(** Every reachable world is well formed, and settled where that matters. *)
Lemma reachable_invariants (v : Variant) (JSON_stringify : list Product → string)
    (w : World) :
  reachable v JSON_stringify w → wf_world w ∧ settled_for v w.
Proof.
  induction 1 as [entries stored|api a w _ [Hwf Hsettled]].
  - destruct v; simpl.
    + by destruct (mount_invariants JSON_stringify entries stored) as (? & ? & _).
    + by destruct (mount_draft_invariants entries stored) as (? & _).
  - by apply step_invariants.
Qed.

(** A handler returns to its caller from any world whatsoever: whatever the
    body raises is caught. *)
Lemma step_returns (v : Variant) (JSON_stringify : list Product → string)
    (api : Api) (a : Action) (w : World) :
  (step_of v JSON_stringify api a w).1 = Normal tt.
Proof.
  assert (∀ body n w0, (try_catch body (toast_error n) w0).1 = Normal tt) as Hcatch.
  { intros body n w0. unfold try_catch. by destruct (body w0) as [[[]|] ?]. }
  destruct v; simpl.
  - assert ((UseCart.handle api (cartState w) a w).1 = Normal tt) as Hhandle.
    { destruct a; apply Hcatch. }
    unfold UseCart.step. by destruct (UseCart.handle api (cartState w) a w).
  - unfold Part000.step. destruct a; [apply Hcatch|apply Hcatch|done].
Qed.

(** * The claims *)

(** C1, amended.  Every step of either provider returns to its caller, and
    whenever the operation fails as the handlers detect it (stock exceeded,
    target entry absent, a request rejected or a stock response without a
    body) the canonical cart list is the one before the call: the cart
    array and every entry object are untouched. *)
Theorem failures_leave_cart_unchanged (v : Variant) (JSON_stringify : list Product → string)
    (api : Api) (a : Action) (w : World) :
  wf_world w →
  ∃ w', step_of v JSON_stringify api a w = (Normal tt, w') ∧
    (failure_as_detected api a w w' →
       cart_list w' = cart_list w ∧ cartState w' = cartState w ∧ heap w' = heap w).
Proof.
  intros Hwf.
  destruct (step_spec v JSON_stringify api a w Hwf) as (w' & Hstep & _ & Hreq & Hout).
  exists w'. split; [done|].
  assert (failure_as_detected api a w w' →
          verdict_of v api a (cart_list w) = Silent ∨
          ∃ n, verdict_of v api a (cart_list w) = Notify n) as Hfail.
  { unfold failure_as_detected. rewrite (queried_app _ _ _ Hreq).
    assert (verdict_of v api a (cart_list w) = Silent ∨
            (verdict_of v api a (cart_list w) = verdict api a (cart_list w) ∧
             queries_of v api a (cart_list w) = queries api a (cart_list w)))
      as [Hs|[-> ->]].
    { destruct v, a; auto. }
    { by left. }
    intros [H|[H|H]]; right.
    - by apply stock_exceeded_notifies.
    - by apply target_absent_notifies.
    - by apply rejected_request_notifies. }
  destruct (verdict_of v api a (cart_list w)) as [updatedCart|n|]; simpl in Hout.
  - by intros [?|[? ?]]%Hfail.
  - destruct Hout as (Hc & Hh & _).
    intros _. split_and!; [by apply same_cart_list|done|done].
  - by subst.
Qed.

Lemma failures_leave_cart_unchanged_witness :
  ∃ w', step_of Full sample_stringify sample_api (Remove 7) (sample_world [shoe 1 2])
        = (Normal tt, w') ∧
    (failure_as_detected sample_api (Remove 7) (sample_world [shoe 1 2]) w' →
       cart_list w' = cart_list (sample_world [shoe 1 2]) ∧
       cartState w' = cartState (sample_world [shoe 1 2]) ∧
       heap w' = heap (sample_world [shoe 1 2])).
Proof.
  apply (failures_leave_cart_unchanged Full sample_stringify sample_api (Remove 7)
           (sample_world [shoe 1 2])).
  apply (bool_decide_unpack _). vm_compute. exact I.
Defined.

(** C1 as stated fails: a stock response that carries no amount is a
    malformed response, yet [addProduct] goes on and appends the product. *)
Lemma malformed_stock_is_not_a_failure : ¬ failures_leave_cart_as_designed.
Proof.
  intros H.
  destruct (H Full sample_stringify empty_stock_api (Add 1) (sample_world []))
    as (w' & Hstep & Hsame).
  { apply (bool_decide_unpack _). vm_compute. exact I. }
  assert (w' = (step_of Full sample_stringify empty_stock_api (Add 1) (sample_world [])).2)
    as Hw' by (by rewrite Hstep).
  assert (queried (sample_world []) w' = [GetProduct 1; GetStock 1]) as Hqueried.
  { rewrite Hw'. vm_compute. reflexivity. }
  assert (cart_list w' = [shoe 1 1]) as Hafter.
  { rewrite Hw'. vm_compute. reflexivity. }
  assert (cart_list (sample_world []) = []) as Hbefore.
  { vm_compute. reflexivity. }
  unfold failure_as_designed in Hsame.
  rewrite Hqueried, Hafter, Hbefore in Hsame.
  discriminate Hsame.
  right. right. apply Exists_cons. right. apply Exists_cons. left. exact I.
Qed.



(** C3.  A cart holds no entry for the product, the stock lookup returns an
    amount of at least 1 and the catalog lookup succeeds.  Then [addProduct]
    returns, and the new list is the old one followed by exactly one entry:
    it has amount 1 and the id, title, price and image of the product of
    the catalog.  Nothing is notified.  Both providers. *)
Theorem add_new_product (v : Variant) (JSON_stringify : list Product → string)
    (api : Api) (w : World) (productId s : Z) (product : Product) :
  wf_world w →
  Forall (λ entry, id entry ≠ productId) (cart_list w) →
  stock_of api productId = Resolved (Amount s) → 1 <= s →
  product_of api productId = Resolved product →
  ∃ w' entry,
    step_of v JSON_stringify api (Add productId) w = (Normal tt, w') ∧
    cart_list w' = cart_list w ++ [entry] ∧
    amount entry = 1 ∧
    id entry = id product ∧ title entry = title product ∧
    price entry = price product ∧ image entry = image product ∧
    toasts w' = toasts w.
Proof.
  intros Hwf Hcart Hstock Hs Hproduct.
  destruct (step_spec v JSON_stringify api (Add productId) w Hwf)
    as (w' & Hstep & _ & _ & Hout).
  exists w', (mkProduct (id product) (title product) (price product) (image product) 1).
  split; [done|].
  replace (verdict_of v api (Add productId) (cart_list w))
    with (add_verdict api productId (cart_list w)) in Hout by (by destruct v).
  unfold add_verdict, current_amount in Hout.
  rewrite Hstock, (proj2 (first_with_id_absent _ _) Hcart), Hproduct in Hout.
  simpl in Hout. rewrite bool_decide_eq_false_2 in Hout by lia.
  destruct Hout as (Hc & _ & Ht & _).
  split_and!; [exact Hc|reflexivity..|exact Ht].
Qed.

Lemma add_new_product_witness :
  ∃ w' entry,
    step_of Draft sample_stringify sample_api (Add 3) (sample_world [shoe 1 2; shoe 2 1])
    = (Normal tt, w') ∧
    cart_list w' = cart_list (sample_world [shoe 1 2; shoe 2 1]) ++ [entry] ∧
    amount entry = 1 ∧
    id entry = id (shoe 3 0) ∧ title entry = title (shoe 3 0) ∧
    price entry = price (shoe 3 0) ∧ image entry = image (shoe 3 0) ∧
    toasts w' = toasts (sample_world [shoe 1 2; shoe 2 1]).
Proof.
  apply (add_new_product Draft sample_stringify sample_api
           (sample_world [shoe 1 2; shoe 2 1]) 3 5 (shoe 3 0)).
  - apply (bool_decide_unpack _). vm_compute. exact I.
  - repeat constructor; vm_compute; discriminate.
  - reflexivity.
  - lia.
  - reflexivity.
Defined.

(** C4.  A cart holds an entry for the product (the entry the lookup finds).
    Then [removeProduct] returns, and the new list is the old one without
    that entry: the entries before it and after it are as they were, in the
    same order.  Nothing is notified.  Both providers. *)
Theorem remove_present_product (v : Variant) (JSON_stringify : list Product → string)
    (api : Api) (w : World) (productId : Z) (l1 l2 : list Product) (e : Product) :
  wf_world w →
  cart_list w = l1 ++ e :: l2 →
  Forall (λ product, id product ≠ productId) l1 →
  id e = productId →
  ∃ w', step_of v JSON_stringify api (Remove productId) w = (Normal tt, w') ∧
        cart_list w' = l1 ++ l2 ∧ toasts w' = toasts w.
Proof.
  intros Hwf Hcart Hl1 He.
  destruct (step_spec v JSON_stringify api (Remove productId) w Hwf)
    as (w' & Hstep & _ & _ & Hout).
  exists w'. split; [done|].
  replace (verdict_of v api (Remove productId) (cart_list w))
    with (remove_verdict productId (cart_list w)) in Hout by (by destruct v).
  rewrite Hcart, (remove_found _ _ _ _ Hl1 He) in Hout.
  by destruct Hout as (? & _ & ? & _).
Qed.

Lemma remove_present_product_witness :
  ∃ w', step_of Full sample_stringify sample_api (Remove 2) (sample_world [shoe 1 1; shoe 2 1])
        = (Normal tt, w') ∧
        cart_list w' = [shoe 1 1] ++ [] ∧
        toasts w' = toasts (sample_world [shoe 1 1; shoe 2 1]).
Proof.
  apply (remove_present_product Full sample_stringify sample_api
           (sample_world [shoe 1 1; shoe 2 1]) 2 [shoe 1 1] [] (shoe 2 1)).
  - apply (bool_decide_unpack _). vm_compute. exact I.
  - reflexivity.
  - repeat constructor; vm_compute; discriminate.
  - reflexivity.
Defined.

(** C5.  [updateProductAmount] of [UseCart], asked for an amount of at
    least 1, with the stock lookup returning [s], returns and:
    - when the amount is above [s], raises the out-of-stock notification
      and leaves the list (and the stored snapshot) unchanged;
    - when the amount is at most [s] and the cart holds an entry for the
      product, leaves that entry (the one the lookup finds) with exactly
      the requested amount and with the id, title, price and image it had,
      leaves the other entries as they were, notifies nothing and stores
      the serialization of the new list;
    - when the amount is at most [s] and the cart holds no such entry,
      raises the update-failed notification and leaves the list unchanged. *)
Theorem update_product_amount (JSON_stringify : list Product → string) (api : Api)
    (w : World) (productId a s : Z) :
  wf_world w → settled w →
  1 <= a →
  stock_of api productId = Resolved (Amount s) →
  ∃ w', UseCart.step JSON_stringify api (Update productId a) w = (Normal tt, w') ∧
    (a > s →
       cart_list w' = cart_list w ∧ toasts w' = OutOfStock :: toasts w ∧
       localStorage w' = localStorage w) ∧
    (a <= s →
       ∀ l1 e l2,
         cart_list w = l1 ++ e :: l2 →
         Forall (λ product, id product ≠ productId) l1 → id e = productId →
         cart_list w' = l1 ++ mkProduct (id e) (title e) (price e) (image e) a :: l2 ∧
         toasts w' = toasts w ∧
         localStorage w' = Some (JSON_stringify (cart_list w'))) ∧
    (a <= s →
       Forall (λ product, id product ≠ productId) (cart_list w) →
       cart_list w' = cart_list w ∧ toasts w' = UpdateFailed :: toasts w ∧
       localStorage w' = localStorage w).
Proof.
  intros Hwf Hsettled Ha Hstock.
  destruct (step_full JSON_stringify api (Update productId a) w Hwf)
    as (w' & Hstep & _ & _ & Hout).
  exists w'. split; [done|].
  simpl in Hout. unfold update_verdict in Hout.
  rewrite bool_decide_eq_false_2, Hstock in Hout by lia. simpl in Hout.
  split_and!.
  - intros Hs. rewrite bool_decide_eq_true_2 in Hout by lia.
    destruct Hout as (Hc & Hh & Ht & Hls & _).
    split_and!; [by apply same_cart_list|done|done].
  - intros Hs l1 e l2 Hcart Hl1 He.
    rewrite bool_decide_eq_false_2 in Hout by lia.
    rewrite Hcart, (first_with_id_found _ _ _ _ Hl1 He) in Hout.
    rewrite (assign_first_found _ _ _ _ _ Hl1 He) in Hout.
    destruct Hout as (Hc & _ & Ht & Hp).
    destruct (Hp Hsettled) as (Hls & _).
    split_and!; [rewrite Hc; reflexivity|done|]. by rewrite Hc.
  - intros Hs Hcart. rewrite bool_decide_eq_false_2 in Hout by lia.
    rewrite (proj2 (first_with_id_absent _ _) Hcart) in Hout.
    destruct Hout as (Hc & Hh & Ht & Hls & _).
    split_and!; [by apply same_cart_list|done|done].
Qed.

Lemma update_product_amount_witness :
  ∃ w', UseCart.step sample_stringify sample_api (Update 2 4)
          (sample_world [shoe 1 2; shoe 2 1]) = (Normal tt, w') ∧
    (4 > 5 →
       cart_list w' = cart_list (sample_world [shoe 1 2; shoe 2 1]) ∧
       toasts w' = OutOfStock :: toasts (sample_world [shoe 1 2; shoe 2 1]) ∧
       localStorage w' = localStorage (sample_world [shoe 1 2; shoe 2 1])) ∧
    (4 <= 5 →
       ∀ l1 e l2,
         cart_list (sample_world [shoe 1 2; shoe 2 1]) = l1 ++ e :: l2 →
         Forall (λ product, id product ≠ 2) l1 → id e = 2 →
         cart_list w' = l1 ++ mkProduct (id e) (title e) (price e) (image e) 4 :: l2 ∧
         toasts w' = toasts (sample_world [shoe 1 2; shoe 2 1]) ∧
         localStorage w' = Some (sample_stringify (cart_list w'))) ∧
    (4 <= 5 →
       Forall (λ product, id product ≠ 2) (cart_list (sample_world [shoe 1 2; shoe 2 1])) →
       cart_list w' = cart_list (sample_world [shoe 1 2; shoe 2 1]) ∧
       toasts w' = UpdateFailed :: toasts (sample_world [shoe 1 2; shoe 2 1]) ∧
       localStorage w' = localStorage (sample_world [shoe 1 2; shoe 2 1])).
Proof.
  apply (update_product_amount sample_stringify sample_api
           (sample_world [shoe 1 2; shoe 2 1]) 2 4 5).
  - apply (bool_decide_unpack _). vm_compute. exact I.
  - apply (bool_decide_unpack _). vm_compute. exact I.
  - lia.
  - reflexivity.
Defined.

(** C6.  [updateProductAmount] asked for an amount of 0 or less returns and
    leaves the whole world as it was: the cart list is unchanged, nothing is
    notified, no request is made, nothing is stored.  Both providers. *)
Theorem update_nonpositive_is_silent (v : Variant) (JSON_stringify : list Product → string)
    (api : Api) (w : World) (productId a : Z) :
  a <= 0 →
  ∃ w', step_of v JSON_stringify api (Update productId a) w = (Normal tt, w') ∧
        w' = w ∧
        cart_list w' = cart_list w ∧ toasts w' = toasts w ∧ requests w' = requests w.
Proof.
  intros Ha. exists w. split; [|done].
  destruct v; simpl; [|done].
  unfold UseCart.step, UseCart.rerender. simpl.
  unfold UseCart.updateProductAmount, try_catch.
  rewrite bool_decide_eq_true_2 by done. simpl.
  by rewrite bool_decide_eq_true_2.
Qed.

Lemma update_nonpositive_is_silent_witness :
  ∃ w', step_of Full sample_stringify sample_api (Update 1 0) (sample_world [shoe 1 2])
        = (Normal tt, w') ∧
        w' = sample_world [shoe 1 2] ∧
        cart_list w' = cart_list (sample_world [shoe 1 2]) ∧
        toasts w' = toasts (sample_world [shoe 1 2]) ∧
        requests w' = requests (sample_world [shoe 1 2]).
Proof.
  apply (update_nonpositive_is_silent Full sample_stringify sample_api
           (sample_world [shoe 1 2]) 1 0).
  lia.
Defined.

(** C7, amended.  When a successful catalog lookup returns the product with
    the id that was asked for, every step of either provider returns and
    turns a cart list with at most one entry per id into such a list again,
    whatever else the collaborators answer. *)
Theorem uniqueness_preserved (v : Variant) (JSON_stringify : list Product → string)
    (api : Api) (a : Action) (w : World) :
  wf_world w → catalog_faithful api →
  unique_ids (cart_list w) →
  ∃ w', step_of v JSON_stringify api a w = (Normal tt, w') ∧
        unique_ids (cart_list w').
Proof.
  intros Hwf Hapi Hcart.
  destruct (step_spec v JSON_stringify api a w Hwf) as (w' & Hstep & _ & _ & Hout).
  exists w'. split; [done|].
  destruct (verdict_of v api a (cart_list w)) as [updatedCart|n|] eqn:Hv; simpl in Hout.
  - destruct Hout as (-> & _).
    apply (verdict_unique_ids api a (cart_list w)); [done|done|].
    by destruct v, a.
  - destruct Hout as (Hc & Hh & _). by rewrite (same_cart_list w w').
  - by subst.
Qed.

Lemma uniqueness_preserved_witness :
  ∃ w', step_of Full sample_stringify sample_api (Add 2) (sample_world [shoe 1 2])
        = (Normal tt, w') ∧
        unique_ids (cart_list w').
Proof.
  apply (uniqueness_preserved Full sample_stringify sample_api (Add 2)
           (sample_world [shoe 1 2])).
  - apply (bool_decide_unpack _). vm_compute. exact I.
  - intros productId product. simpl. intros [= <-]. reflexivity.
  - apply (bool_decide_unpack _). vm_compute. exact I.
Defined.

(** C7 as stated fails: a catalog that answers the lookup of product 2 with
    product 1 makes [addProduct 2] append a second entry with id 1. *)
Lemma uniqueness_broken_by_catalog : ¬ uniqueness_under_any_outcome.
Proof.
  intros H.
  specialize (H Full sample_stringify confused_api (Add 2) (sample_world [shoe 1 2])).
  assert (unique_ids [shoe 1 2; shoe 1 1]) as Hbad.
  { apply H.
    - apply (bool_decide_unpack _). vm_compute. exact I.
    - apply (bool_decide_unpack _). vm_compute. exact I. }
  unfold unique_ids in Hbad. simpl in Hbad.
  apply NoDup_cons in Hbad as [Hbad _]. apply Hbad. set_solver.
Qed.

(** C8.  Every step of either provider returns, and:
    - when it has committed a new cart array (a successful mutation), nothing
      was notified and the value stored under the key is the serialization
      of the new cart list, written by this step;
    - when it has not, the cart list and every entry object are as they
      were (no amount is written in place without a commit), the stored
      value is the one before and nothing was written;
    - a step that notified a failure has not committed, hence wrote nothing;
    - hence whenever the cart list after the step differs from the list
      before, the serialization of the new list has been written by this
      step and is the stored value. *)
Theorem persisted_after_mutation (v : Variant) (JSON_stringify : list Product → string)
    (api : Api) (a : Action) (w : World) :
  wf_world w → settled_for v w →
  ∃ w', step_of v JSON_stringify api a w = (Normal tt, w') ∧
    (cartState w' ≠ cartState w →
       toasts w' = toasts w ∧
       localStorage w' = Some (JSON_stringify (cart_list w')) ∧
       setItemCalls w' = JSON_stringify (cart_list w') :: setItemCalls w) ∧
    (cartState w' = cartState w →
       cart_list w' = cart_list w ∧ heap w' = heap w ∧
       localStorage w' = localStorage w ∧ setItemCalls w' = setItemCalls w) ∧
    (toasts w' ≠ toasts w →
       cartState w' = cartState w ∧
       localStorage w' = localStorage w ∧ setItemCalls w' = setItemCalls w) ∧
    (cart_list w' ≠ cart_list w →
       localStorage w' = Some (JSON_stringify (cart_list w')) ∧
       setItemCalls w' = JSON_stringify (cart_list w') :: setItemCalls w).
Proof.
  intros Hwf Hsettled.
  destruct (step_spec v JSON_stringify api a w Hwf) as (w' & Hstep & _ & _ & Hout).
  exists w'. split; [done|].
  destruct (verdict_of v api a (cart_list w)) as [updatedCart|n|]; simpl in Hout.
  - destruct Hout as (Hc & Href & Ht & Hp).
    destruct (Hp Hsettled) as (Hls & Hcalls & _).
    split_and!.
    + intros _. by rewrite Hc.
    + intros Heq. by rewrite Heq in Href.
    + intros Hne. by destruct Hne.
    + intros _. by rewrite Hc.
  - destruct Hout as (Hc & Hh & _ & Hls & Hcalls & _).
    pose proof (same_cart_list w w' Hc Hh) as Hlist.
    split_and!; [by intros []|done|done|by intros []].
  - subst w'. split_and!; [by intros []|done|done|by intros []].
Qed.

Lemma persisted_after_mutation_witness :
  ∃ w', step_of Full sample_stringify sample_api (Add 2) (sample_world [shoe 1 2])
        = (Normal tt, w') ∧
    (cartState w' ≠ cartState (sample_world [shoe 1 2]) →
       toasts w' = toasts (sample_world [shoe 1 2]) ∧
       localStorage w' = Some (sample_stringify (cart_list w')) ∧
       setItemCalls w' = sample_stringify (cart_list w')
                         :: setItemCalls (sample_world [shoe 1 2])) ∧
    (cartState w' = cartState (sample_world [shoe 1 2]) →
       cart_list w' = cart_list (sample_world [shoe 1 2]) ∧
       heap w' = heap (sample_world [shoe 1 2]) ∧
       localStorage w' = localStorage (sample_world [shoe 1 2]) ∧
       setItemCalls w' = setItemCalls (sample_world [shoe 1 2])) ∧
    (toasts w' ≠ toasts (sample_world [shoe 1 2]) →
       cartState w' = cartState (sample_world [shoe 1 2]) ∧
       localStorage w' = localStorage (sample_world [shoe 1 2]) ∧
       setItemCalls w' = setItemCalls (sample_world [shoe 1 2])) ∧
    (cart_list w' ≠ cart_list (sample_world [shoe 1 2]) →
       localStorage w' = Some (sample_stringify (cart_list w')) ∧
       setItemCalls w' = sample_stringify (cart_list w')
                         :: setItemCalls (sample_world [shoe 1 2])).
Proof.
  apply (persisted_after_mutation Full sample_stringify sample_api (Add 2)
           (sample_world [shoe 1 2])).
  - apply (bool_decide_unpack _). vm_compute. exact I.
  - apply (bool_decide_unpack _). vm_compute. exact I.
Defined.

(** C9.  [addProduct] and [removeProduct] of the draft behave as those of
    [UseCart]: from the same world, for every product id and every answer of
    the collaborators, both return, and they leave the same cart list, the
    same notifications and the same stored snapshot. *)
Theorem draft_agrees_with_full (JSON_stringify : list Product → string) (api : Api)
    (w : World) (productId : Z) (a : Action) :
  wf_world w → settled w →
  a = Add productId ∨ a = Remove productId →
  ∃ w1 w2,
    UseCart.step JSON_stringify api a w = (Normal tt, w1) ∧
    Part000.step JSON_stringify api a w = (Normal tt, w2) ∧
    cart_list w1 = cart_list w2 ∧
    toasts w1 = toasts w2 ∧
    localStorage w1 = localStorage w2.
Proof.
  intros Hwf Hsettled Ha.
  destruct (step_spec Full JSON_stringify api a w Hwf) as (w1 & Hstep1 & _ & _ & Hout1).
  destruct (step_spec Draft JSON_stringify api a w Hwf) as (w2 & Hstep2 & _ & _ & Hout2).
  exists w1, w2. split; [done|]. split; [done|].
  replace (verdict_of Draft api a (cart_list w)) with (verdict_of Full api a (cart_list w))
    in Hout2 by (by destruct Ha as [-> | ->]).
  destruct (verdict_of Full api a (cart_list w)) as [updatedCart|n|]; simpl in *.
  - destruct Hout1 as (Hc1 & _ & Ht1 & Hp1), Hout2 as (Hc2 & _ & Ht2 & Hp2).
    destruct (Hp1 Hsettled) as (Hls1 & _), (Hp2 I) as (Hls2 & _).
    split_and!; congruence.
  - destruct Hout1 as (Hc1 & Hh1 & Ht1 & Hls1 & _), Hout2 as (Hc2 & Hh2 & Ht2 & Hls2 & _).
    split_and!; [|congruence|congruence].
    rewrite (same_cart_list w w1), (same_cart_list w w2); done.
  - by subst.
Qed.

Lemma draft_agrees_with_full_witness :
  ∃ w1 w2,
    UseCart.step sample_stringify sample_api (Add 2) (sample_world [shoe 1 2])
      = (Normal tt, w1) ∧
    Part000.step sample_stringify sample_api (Add 2) (sample_world [shoe 1 2])
      = (Normal tt, w2) ∧
    cart_list w1 = cart_list w2 ∧
    toasts w1 = toasts w2 ∧
    localStorage w1 = localStorage w2.
Proof.
  apply (draft_agrees_with_full sample_stringify sample_api (sample_world [shoe 1 2])
           2 (Add 2)).
  - apply (bool_decide_unpack _). vm_compute. exact I.
  - apply (bool_decide_unpack _). vm_compute. exact I.
  - left. reflexivity.
Defined.

(** C10.  [removeProduct] removes only the first entry with the id: when a
    cart holds that id twice or more (the first at [e1], a later one at
    [e2]), the entry [e1] goes and everything after it stays, the later
    duplicate [e2] included.  Both providers. *)
Theorem remove_keeps_later_duplicates (v : Variant) (JSON_stringify : list Product → string)
    (api : Api) (w : World) (productId : Z) (l1 m1 m2 : list Product) (e1 e2 : Product) :
  wf_world w →
  cart_list w = l1 ++ e1 :: m1 ++ e2 :: m2 →
  Forall (λ product, id product ≠ productId) l1 →
  id e1 = productId → id e2 = productId →
  ∃ w', step_of v JSON_stringify api (Remove productId) w = (Normal tt, w') ∧
        cart_list w' = l1 ++ m1 ++ e2 :: m2 ∧
        e2 ∈ cart_list w'.
Proof.
  intros Hwf Hcart Hl1 He1 He2.
  destruct (step_spec v JSON_stringify api (Remove productId) w Hwf)
    as (w' & Hstep & _ & _ & Hout).
  exists w'. split; [done|].
  replace (verdict_of v api (Remove productId) (cart_list w))
    with (remove_verdict productId (cart_list w)) in Hout by (by destruct v).
  rewrite Hcart, (remove_found _ _ _ _ Hl1 He1) in Hout.
  destruct Hout as (-> & _). split; [done|]. set_solver.
Qed.

Lemma remove_keeps_later_duplicates_witness :
  ∃ w', step_of Full sample_stringify sample_api (Remove 1)
          (sample_world [shoe 2 1; shoe 1 2; shoe 3 1; shoe 1 7]) = (Normal tt, w') ∧
        cart_list w' = [shoe 2 1] ++ [shoe 3 1] ++ shoe 1 7 :: [] ∧
        shoe 1 7 ∈ cart_list w'.
Proof.
  apply (remove_keeps_later_duplicates Full sample_stringify sample_api
           (sample_world [shoe 2 1; shoe 1 2; shoe 3 1; shoe 1 7]) 1
           [shoe 2 1] [shoe 3 1] [] (shoe 1 2) (shoe 1 7)).
  - apply (bool_decide_unpack _). vm_compute. exact I.
  - reflexivity.
  - repeat constructor; vm_compute; discriminate.
  - reflexivity.
  - reflexivity.
Defined.

(** ** Worked examples *)

(** cart = [{id:1,amount:2}], stock(1)=5: addProduct(1) gives [{id:1,amount:3}]
    and stores it. *)
Example add_increments :
  let w' := (UseCart.step sample_stringify sample_api (Add 1) (sample_world [shoe 1 2])).2 in
  cart_list w' = [shoe 1 3] ∧ toasts w' = [] ∧
  localStorage w' = Some (sample_stringify [shoe 1 3]).
Proof. vm_compute. by split_and!. Qed.

(** cart = [{id:1,amount:5}], stock(1)=5: addProduct(1) changes nothing and
    raises the out-of-stock notification. *)
Example add_out_of_stock :
  let w' := (UseCart.step sample_stringify sample_api (Add 1) (sample_world [shoe 1 5])).2 in
  cart_list w' = [shoe 1 5] ∧ toasts w' = [OutOfStock] ∧ localStorage w' = None.
Proof. vm_compute. by split_and!. Qed.

(** cart = [{id:1,amount:1},{id:2,amount:1}]: removeProduct(2) gives
    [{id:1,amount:1}]. *)
Example remove_second :
  let w' := (Part000.step sample_stringify sample_api (Remove 2)
               (sample_world [shoe 1 1; shoe 2 1])).2 in
  cart_list w' = [shoe 1 1] ∧ toasts w' = [].
Proof. vm_compute. by split_and!. Qed.

(** The copy [[...cart]] is shallow: after a successful increment the array
    of the previous render denotes the new amount too. *)
Example previous_array_sees_the_update :
  let w := sample_world [shoe 1 2] in
  let w' := (UseCart.step sample_stringify sample_api (Add 1) w).2 in
  cartState w' ≠ cartState w ∧ view (heap w') (cartState w) = [shoe 1 3].
Proof. vm_compute. split; [discriminate|done]. Qed.

(** The draft's [updateProductAmount] is a stub: it ignores any request. *)
Example draft_update_is_a_stub :
  Part000.step sample_stringify sample_api (Update 1 4) (sample_world [shoe 1 2])
  = (Normal tt, sample_world [shoe 1 2]).
Proof. reflexivity. Qed.

(** A network error on the stock lookup: the failure is notified and the
    cart, the entry objects and the store are as before. *)
Example add_offline :
  let w := sample_world [shoe 1 2] in
  let w' := (UseCart.step sample_stringify offline_api (Add 1) w).2 in
  cart_list w' = [shoe 1 2] ∧ heap w' = heap w ∧ toasts w' = [AddFailed] ∧
  requests w' = [GetStock 1] ∧ localStorage w' = None.
Proof. vm_compute. by split_and!. Qed.

(** A stock response without an amount: [1 > undefined] is false, so the
    product is added and stored as if stock were unlimited. *)
Example add_without_stock_amount :
  let w' := (UseCart.step sample_stringify empty_stock_api (Add 1) (sample_world [])).2 in
  cart_list w' = [shoe 1 1] ∧ toasts w' = [] ∧
  localStorage w' = Some (sample_stringify [shoe 1 1]).
Proof. vm_compute. by split_and!. Qed.

(** * Beyond the claims *)

(** ** What a handler can decide *)

Lemma add_verdict_cases (api : Api) (productId : Z) (cart : list Product) :
  add_verdict api productId cart = Notify AddFailed ∨
  (add_verdict api productId cart = Notify OutOfStock ∧
   ∃ s, stock_of api productId = Resolved (Amount s) ∧
        s < current_amount productId cart + 1) ∨
  (∃ l1 e l2, cart = l1 ++ e :: l2 ∧
     Forall (λ product, id product ≠ productId) l1 ∧ id e = productId ∧
     js_gt (amount e + 1) (default None (stock_reading (stock_of api productId))) = false ∧
     add_verdict api productId cart = Commit (l1 ++ with_amount (amount e + 1) e :: l2)) ∨
  (Forall (λ product, id product ≠ productId) cart ∧
   js_gt 1 (default None (stock_reading (stock_of api productId))) = false ∧
   ∃ product, product_of api productId = Resolved product ∧
     add_verdict api productId cart = Commit (cart ++ [with_amount 1 product])).
Proof.
  unfold add_verdict, current_amount.
  destruct (stock_of api productId) as [|[| |s]] eqn:Hstock; simpl; [by left|by left| |].
  - destruct (first_with_id productId cart) as [e|] eqn:Hfirst; simpl.
    + apply first_with_id_split in Hfirst as (l1 & l2 & -> & Hl1 & He).
      right; right; left. exists l1, e, l2.
      by rewrite (assign_first_found _ _ _ _ _ Hl1 He).
    + apply first_with_id_absent in Hfirst.
      destruct (product_of api productId) as [|product]; [by left|].
      right; right; right. split_and!; [done|done|by exists product].
  - destruct (first_with_id productId cart) as [e|] eqn:Hfirst; simpl.
    + apply first_with_id_split in Hfirst as (l1 & l2 & -> & Hl1 & He).
      case_bool_decide as Hs.
      * right; left. split; [done|]. by exists s.
      * right; right; left. exists l1, e, l2.
        rewrite (assign_first_found _ _ _ _ _ Hl1 He).
        split_and!; try done. by apply bool_decide_eq_false_2.
    + apply first_with_id_absent in Hfirst.
      case_bool_decide as Hs.
      * right; left. split; [done|]. by exists s.
      * destruct (product_of api productId) as [|product]; [by left|].
        right; right; right. split_and!; [done| |by exists product].
        by apply bool_decide_eq_false_2.
Qed.

Lemma remove_verdict_cases (productId : Z) (cart : list Product) :
  (Forall (λ product, id product ≠ productId) cart ∧
   remove_verdict productId cart = Notify RemoveFailed) ∨
  (∃ l1 e l2, cart = l1 ++ e :: l2 ∧
     Forall (λ product, id product ≠ productId) l1 ∧ id e = productId ∧
     remove_verdict productId cart = Commit (l1 ++ l2)).
Proof.
  destruct (first_with_id productId cart) as [e|] eqn:Hfirst.
  - apply first_with_id_split in Hfirst as (l1 & l2 & -> & Hl1 & He).
    right. exists l1, e, l2. by rewrite (remove_found _ _ _ _ Hl1 He).
  - left. split; [by apply first_with_id_absent | by apply remove_absent].
Qed.

Lemma update_verdict_cases (api : Api) (productId a : Z) (cart : list Product) :
  (a <= 0 ∧ update_verdict api productId a cart = Silent) ∨
  (0 < a ∧ update_verdict api productId a cart = Notify UpdateFailed) ∨
  (0 < a ∧ update_verdict api productId a cart = Notify OutOfStock ∧
   ∃ s, stock_of api productId = Resolved (Amount s) ∧ s < a) ∨
  (0 < a ∧ ∃ l1 e l2, cart = l1 ++ e :: l2 ∧
     Forall (λ product, id product ≠ productId) l1 ∧ id e = productId ∧
     js_gt a (default None (stock_reading (stock_of api productId))) = false ∧
     update_verdict api productId a cart = Commit (l1 ++ with_amount a e :: l2)).
Proof.
  unfold update_verdict. case_bool_decide as Ha; [by left|].
  assert (0 < a) by lia. right.
  destruct (stock_of api productId) as [|[| |s]] eqn:Hstock; simpl; [by left|by left| |].
  - destruct (first_with_id productId cart) as [e|] eqn:Hfirst; [|by left].
    apply first_with_id_split in Hfirst as (l1 & l2 & -> & Hl1 & He).
    right; right. split; [done|]. exists l1, e, l2.
    by rewrite (assign_first_found _ _ _ _ _ Hl1 He).
  - case_bool_decide as Hs.
    { right; left. split_and!; [done|done|by exists s]. }
    destruct (first_with_id productId cart) as [e|] eqn:Hfirst; [|by left].
    apply first_with_id_split in Hfirst as (l1 & l2 & -> & Hl1 & He).
    right; right. split; [done|]. exists l1, e, l2.
    by rewrite (assign_first_found _ _ _ _ _ Hl1 He).
Qed.

(** ** Loading the page *)

Lemma mount_worlds (JSON_stringify : list Product → string) (entries : list Product)
    (stored : option string) :
  ∃ h n ls,
    UseCart.mount JSON_stringify entries stored =
      mkWorld h (S n) (mkArray n ls) (Some (mkArray n ls)) (Some (n, n)) stored [] [] [] ∧
    Part000.mount entries stored =
      mkWorld h (S n) (mkArray n ls) None None stored [] [] [] ∧
    denotes h ls entries ∧ NoDup ls ∧ (∀ l, is_Some (h !! l) → (l < n)%nat).
Proof.
  destruct (new_objects_spec entries (blank stored))
    as (ls & w' & Hrun & Hd & Hnd & Hge & Hheap & Hle & _ &
        Hc & Hprev & Hdeps & Hls & Hcalls & Htoasts & Hreqs).
  { intros l [product Hl]. simpl in Hl. by rewrite lookup_empty in Hl. }
  simpl in Hprev, Hdeps, Hls, Hcalls, Htoasts, Hreqs.
  exists (heap w'), (fresh w'), ls. split_and!; try done.
  - unfold UseCart.mount, bind. rewrite Hrun.
    unfold new_array, setCart, UseCart.render. wsimpl.
    rewrite Hprev, Hdeps. simpl.
    rewrite bool_decide_eq_false_2 by (by intros []).
    unfold set_effectDeps, set_prevCartRef, set_cartState, set_fresh. simpl.
    by rewrite Hls, Hcalls, Htoasts, Hreqs.
  - unfold Part000.mount, bind. rewrite Hrun.
    unfold new_array, setCart, set_cartState, set_fresh. simpl.
    by rewrite Hprev, Hdeps, Hls, Hcalls, Htoasts, Hreqs.
Qed.

Lemma mount_of_spec (v : Variant) (JSON_stringify : list Product → string)
    (entries : list Product) (stored : option string) :
  wf_world (mount_of v JSON_stringify entries stored) ∧
  settled_for v (mount_of v JSON_stringify entries stored) ∧
  cart_list (mount_of v JSON_stringify entries stored) = entries ∧
  localStorage (mount_of v JSON_stringify entries stored) = stored ∧
  setItemCalls (mount_of v JSON_stringify entries stored) = [] ∧
  toasts (mount_of v JSON_stringify entries stored) = [] ∧
  requests (mount_of v JSON_stringify entries stored) = [].
Proof.
  destruct (mount_worlds JSON_stringify entries stored)
    as (h & n & ls & Hfull & Hdraft & Hd & Hnd & Hheap).
  assert (∀ prev deps,
            wf_world (mkWorld h (S n) (mkArray n ls) prev deps stored [] [] [])) as Hwf.
  { intros prev deps. constructor; simpl; [done|by eapply denotes_allocated| |lia].
    intros l Hl. specialize (Hheap l Hl). lia. }
  destruct v; simpl; [rewrite Hfull|rewrite Hdraft]; split_and!; try done.
  all: unfold cart_list, view; simpl; by apply denotes_view.
Qed.

(** X1.  Loading the page with a non-empty snapshot that [JSON.parse]
    accepts mounts the provider on the parsed list, and writes nothing: the
    stored text is the one that was read, no [setItem] call was made,
    nothing was notified and no request was sent.  Both providers. *)
Theorem start_loads_snapshot (v : Variant) (JSON_parse : string → option (list Product))
    (JSON_stringify : list Product → string) (storagedCart : string) (cart : list Product) :
  storagedCart ≠ "" →
  JSON_parse storagedCart = Some cart →
  ∃ w, start v JSON_parse JSON_stringify (Some storagedCart) = Normal w ∧
       cart_list w = cart ∧
       localStorage w = Some storagedCart ∧ setItemCalls w = [] ∧
       toasts w = [] ∧ requests w = [] ∧
       wf_world w ∧ settled_for v w.
Proof.
  intros Hne Hparse. unfold start, initial_cart, truthy.
  rewrite bool_decide_eq_true_2, Hparse by done.
  eexists. split; [reflexivity|].
  destruct (mount_of_spec v JSON_stringify cart (Some storagedCart))
    as (? & ? & ? & ? & ? & ? & ?).
  by split_and!.
Qed.

Lemma start_loads_snapshot_witness :
  ∃ w, start Full sample_parse sample_stringify
         (Some (sample_stringify [shoe 1 2; shoe 2 1])) = Normal w ∧
       cart_list w = [shoe 1 2; shoe 2 1] ∧
       localStorage w = Some (sample_stringify [shoe 1 2; shoe 2 1]) ∧
       setItemCalls w = [] ∧ toasts w = [] ∧ requests w = [] ∧
       wf_world w ∧ settled_for Full w.
Proof.
  apply (start_loads_snapshot Full sample_parse sample_stringify
           (sample_stringify [shoe 1 2; shoe 2 1]) [shoe 1 2; shoe 2 1]).
  - vm_compute. discriminate.
  - vm_compute. reflexivity.
Defined.

(** X2.  With nothing stored under the key, or with the empty string stored
    (which is falsy), the provider starts on an empty cart without asking
    [JSON.parse], whatever it would have answered, and leaves the store as
    it was.  Both providers. *)
Theorem start_without_snapshot (v : Variant) (JSON_parse : string → option (list Product))
    (JSON_stringify : list Product → string) (stored : option string) :
  stored = None ∨ stored = Some "" →
  ∃ w, start v JSON_parse JSON_stringify stored = Normal w ∧
       cart_list w = [] ∧ localStorage w = stored ∧ setItemCalls w = [] ∧
       wf_world w ∧ settled_for v w.
Proof.
  intros Hstored.
  assert (initial_cart JSON_parse stored = Normal []) as Hinit.
  { by destruct Hstored as [-> | ->]. }
  unfold start. rewrite Hinit.
  eexists. split; [reflexivity|].
  destruct (mount_of_spec v JSON_stringify [] stored) as (? & ? & ? & ? & ? & _).
  by split_and!.
Qed.

Lemma start_without_snapshot_witness :
  ∃ w, start Draft (λ _, None) sample_stringify (Some "") = Normal w ∧
       cart_list w = [] ∧ localStorage w = Some "" ∧ setItemCalls w = [] ∧
       wf_world w ∧ settled_for Draft w.
Proof.
  apply (start_without_snapshot Draft (λ _, None) sample_stringify (Some "")).
  right. reflexivity.
Defined.

(** ** Sessions *)

Lemma run_cons (v : Variant) (JSON_stringify : list Product → string)
    (api : Api) (a : Action) (script : list (Api * Action)) (w : World) :
  run v JSON_stringify ((api, a) :: script) w
  = run v JSON_stringify script (step_of v JSON_stringify api a w).2.
Proof. reflexivity. Qed.

Lemma run_invariants (v : Variant) (JSON_stringify : list Product → string)
    (script : list (Api * Action)) (w : World) :
  wf_world w → settled_for v w →
  wf_world (run v JSON_stringify script w) ∧ settled_for v (run v JSON_stringify script w).
Proof.
  revert w. induction script as [|[api a] script IH]; intros w Hwf Hsettled; [done|].
  rewrite run_cons.
  destruct (step_invariants v JSON_stringify api a w Hwf Hsettled) as [Hwf' Hsettled'].
  by apply IH.
Qed.

Lemma step_sync (v : Variant) (JSON_stringify : list Product → string)
    (api : Api) (a : Action) (w : World) (entries : list Product) (stored : option string) :
  wf_world w → settled_for v w →
  (setItemCalls w = [] ∧ localStorage w = stored ∧ cart_list w = entries) ∨
  (setItemCalls w ≠ [] ∧ localStorage w = Some (JSON_stringify (cart_list w))) →
  (setItemCalls (step_of v JSON_stringify api a w).2 = [] ∧
   localStorage (step_of v JSON_stringify api a w).2 = stored ∧
   cart_list (step_of v JSON_stringify api a w).2 = entries) ∨
  (setItemCalls (step_of v JSON_stringify api a w).2 ≠ [] ∧
   localStorage (step_of v JSON_stringify api a w).2
   = Some (JSON_stringify (cart_list (step_of v JSON_stringify api a w).2))).
Proof.
  intros Hwf Hsettled Hsync.
  destruct (step_spec v JSON_stringify api a w Hwf) as (w' & -> & _ & _ & Hout). simpl.
  destruct (verdict_of v api a (cart_list w)) as [updatedCart|n|]; simpl in Hout.
  - destruct Hout as (Hcart & _ & _ & Hp).
    destruct (Hp Hsettled) as (Hls & Hcalls & _).
    right. rewrite Hcalls, Hls, Hcart. done.
  - destruct Hout as (Hc & Hh & _ & Hls & Hcalls & _).
    by rewrite Hls, Hcalls, (same_cart_list w w').
  - by subst.
Qed.

Lemma run_sync (v : Variant) (JSON_stringify : list Product → string)
    (script : list (Api * Action)) (w : World) (entries : list Product)
    (stored : option string) :
  wf_world w → settled_for v w →
  (setItemCalls w = [] ∧ localStorage w = stored ∧ cart_list w = entries) ∨
  (setItemCalls w ≠ [] ∧ localStorage w = Some (JSON_stringify (cart_list w))) →
  (setItemCalls (run v JSON_stringify script w) = [] ∧
   localStorage (run v JSON_stringify script w) = stored ∧
   cart_list (run v JSON_stringify script w) = entries) ∨
  (setItemCalls (run v JSON_stringify script w) ≠ [] ∧
   localStorage (run v JSON_stringify script w)
   = Some (JSON_stringify (cart_list (run v JSON_stringify script w)))).
Proof.
  revert w. induction script as [|[api a] script IH]; intros w Hwf Hsettled Hsync; [done|].
  rewrite run_cons.
  destruct (step_invariants v JSON_stringify api a w Hwf Hsettled) as [Hwf' Hsettled'].
  apply IH; [done|done|]. by apply step_sync.
Qed.

(** X3.  Throughout a session, whatever the actions and whatever the
    collaborators answer, the store mirrors the cart: either nothing has
    been written yet, and then the stored value and the cart list are still
    those of the mount; or the stored value is the serialization of the
    current cart list.  Both providers. *)
Theorem store_mirrors_cart (v : Variant) (JSON_stringify : list Product → string)
    (entries : list Product) (stored : option string) (script : list (Api * Action)) :
  let w := run v JSON_stringify script (mount_of v JSON_stringify entries stored) in
  (setItemCalls w = [] ∧ localStorage w = stored ∧ cart_list w = entries) ∨
  (setItemCalls w ≠ [] ∧ localStorage w = Some (JSON_stringify (cart_list w))).
Proof.
  destruct (mount_of_spec v JSON_stringify entries stored)
    as (Hwf & Hsettled & Hcart & Hls & Hcalls & _).
  apply run_sync; [done|done|]. by left.
Qed.

(** X4.  Reloading restores the cart.  After a session in which something
    was written, if [JSON.parse] reads the serialization of the current cart
    list back (and that text is not empty), then starting again from the
    stored value mounts the provider on that same list and writes nothing.
    Both providers. *)
Theorem reload_restores_cart (v : Variant) (JSON_parse : string → option (list Product))
    (JSON_stringify : list Product → string)
    (entries : list Product) (stored : option string) (script : list (Api * Action)) :
  let w := run v JSON_stringify script (mount_of v JSON_stringify entries stored) in
  setItemCalls w ≠ [] →
  JSON_stringify (cart_list w) ≠ "" →
  JSON_parse (JSON_stringify (cart_list w)) = Some (cart_list w) →
  ∃ w', start v JSON_parse JSON_stringify (localStorage w) = Normal w' ∧
        cart_list w' = cart_list w ∧
        localStorage w' = localStorage w ∧ setItemCalls w' = [].
Proof.
  intros w Hcalls Hne Hparse.
  destruct (mount_of_spec v JSON_stringify entries stored)
    as (Hwf & Hsettled & Hcart0 & Hls0 & Hcalls0 & _).
  destruct (run_sync v JSON_stringify script _ entries stored Hwf Hsettled)
    as [[Hnone _]|[_ Hls]]; [by left| |].
  { by destruct Hcalls. }
  fold w in Hls. rewrite Hls. unfold start, initial_cart, truthy.
  rewrite bool_decide_eq_true_2, Hparse by done.
  eexists. split; [reflexivity|].
  destruct (mount_of_spec v JSON_stringify (cart_list w)
              (Some (JSON_stringify (cart_list w)))) as (_ & _ & ? & ? & ? & _).
  by split_and!.
Qed.

Lemma reload_restores_cart_witness :
  let w := run Full sample_stringify [(sample_api, Add 2)]
             (mount_of Full sample_stringify [shoe 1 2] None) in
  ∃ w', start Full sample_parse sample_stringify (localStorage w) = Normal w' ∧
        cart_list w' = cart_list w ∧
        localStorage w' = localStorage w ∧ setItemCalls w' = [].
Proof.
  apply (reload_restores_cart Full sample_parse sample_stringify [shoe 1 2] None
           [(sample_api, Add 2)]).
  - vm_compute. discriminate.
  - vm_compute. discriminate.
  - vm_compute. reflexivity.
Defined.

(** ** Amounts *)

Lemma verdict_amounts_positive (api : Api) (a : Action) (cart updatedCart : list Product) :
  amounts_positive cart →
  verdict api a cart = Commit updatedCart → amounts_positive updatedCart.
Proof.
  unfold amounts_positive. intros Hcart.
  destruct a as [productId|productId|productId a]; simpl.
  - destruct (add_verdict_cases api productId cart)
      as [->|[[-> _]|[(l1 & e & l2 & -> & _ & _ & _ & ->)|(_ & _ & product & _ & ->)]]];
      try done; intros [= <-].
    + apply Forall_app in Hcart as [Hl1 [He Hl2]%Forall_cons].
      apply Forall_app. split; [done|]. constructor; [simpl; lia|done].
    + apply Forall_app. split; [done|]. by repeat constructor.
  - destruct (remove_verdict_cases productId cart)
      as [[_ ->]|(l1 & e & l2 & -> & _ & _ & ->)]; [done|]. intros [= <-].
    apply Forall_app in Hcart as [Hl1 [He Hl2]%Forall_cons].
    by apply Forall_app.
  - destruct (update_verdict_cases api productId a cart)
      as [[_ ->]|[[_ ->]|[(_ & -> & _)|(Ha & l1 & e & l2 & -> & _ & _ & _ & ->)]]];
      try done; intros [= <-].
    apply Forall_app in Hcart as [Hl1 [He Hl2]%Forall_cons].
    apply Forall_app. split; [done|]. constructor; [simpl; lia|done].
Qed.

Lemma step_amounts_positive (v : Variant) (JSON_stringify : list Product → string)
    (api : Api) (a : Action) (w : World) :
  wf_world w → amounts_positive (cart_list w) →
  wf_world (step_of v JSON_stringify api a w).2 ∧
  amounts_positive (cart_list (step_of v JSON_stringify api a w).2).
Proof.
  intros Hwf Hcart.
  destruct (step_spec v JSON_stringify api a w Hwf) as (w' & -> & Hwf' & _ & Hout).
  split; [done|]. simpl.
  destruct (verdict_of v api a (cart_list w)) as [updatedCart|n|] eqn:Hv; simpl in Hout.
  - destruct Hout as (-> & _).
    apply (verdict_amounts_positive api a (cart_list w)); [done|].
    by destruct v, a.
  - destruct Hout as (Hc & Hh & _). by rewrite (same_cart_list w w').
  - by subst.
Qed.

(** X5.  Amounts stay above 0.  From a cart in which every entry has an
    amount above 0, no session, whatever the actions and the answers of the
    collaborators, leads to a cart with an entry whose amount is 0 or less:
    new entries start at 1, an increment only grows an amount, and
    [updateProductAmount] ignores amounts of 0 or less.  Both providers. *)
Theorem amounts_stay_positive (v : Variant) (JSON_stringify : list Product → string)
    (script : list (Api * Action)) (w : World) :
  wf_world w → amounts_positive (cart_list w) →
  amounts_positive (cart_list (run v JSON_stringify script w)).
Proof.
  revert w. induction script as [|[api a] script IH]; intros w Hwf Hcart; [done|].
  rewrite run_cons.
  destruct (step_amounts_positive v JSON_stringify api a w Hwf Hcart) as [Hwf' Hcart'].
  by apply IH.
Qed.

Lemma amounts_stay_positive_witness :
  amounts_positive
    (cart_list (run Full sample_stringify
                  [(sample_api, Add 1); (sample_api, Update 1 0); (sample_api, Remove 2)]
                  (sample_world [shoe 1 2; shoe 2 1]))).
Proof.
  apply (amounts_stay_positive Full sample_stringify
           [(sample_api, Add 1); (sample_api, Update 1 0); (sample_api, Remove 2)]
           (sample_world [shoe 1 2; shoe 2 1])).
  - apply (bool_decide_unpack _). vm_compute. exact I.
  - vm_compute. repeat constructor; discriminate.
Defined.

Lemma verdict_within_stock (api : Api) (a : Action) (productId s : Z)
    (cart updatedCart : list Product) (e : Product) :
  (a = Add productId ∨ ∃ amount, a = Update productId amount) →
  stock_of api productId = Resolved (Amount s) →
  verdict api a cart = Commit updatedCart →
  first_with_id productId updatedCart = Some e → amount e <= s.
Proof.
  intros Ha Hstock.
  assert (∀ x, js_gt x (default None (stock_reading (stock_of api productId))) = false →
               x <= s) as Hgt.
  { intros x. rewrite Hstock. simpl. intros ?%bool_decide_eq_false. lia. }
  destruct Ha as [->|[amount ->]]; simpl.
  - destruct (add_verdict_cases api productId cart)
      as [->|[[-> _]|[(l1 & e' & l2 & -> & Hl1 & He' & Hle & ->)
                     |(Hcart & Hle & product & _ & ->)]]];
      try done; intros [= <-].
    + rewrite (first_with_id_found _ l1 l2 (with_amount (amount e' + 1) e')) by done.
      intros [= <-]. simpl. by apply Hgt.
    + destruct (decide (id product = productId)) as [Hid|Hid].
      * rewrite (first_with_id_found _ cart [] (with_amount 1 product)) by done.
        intros [= <-]. simpl. by apply Hgt.
      * rewrite (proj2 (first_with_id_absent _ _)); [done|].
        apply Forall_app. split; [done|]. by repeat constructor.
  - destruct (update_verdict_cases api productId amount cart)
      as [[_ ->]|[[_ ->]|[(_ & -> & _)|(_ & l1 & e' & l2 & -> & Hl1 & He' & Hle & ->)]]];
      try done; intros [= <-].
    rewrite (first_with_id_found _ l1 l2 (with_amount amount e')) by done.
    intros [= <-]. simpl. by apply Hgt.
Qed.

(** X6.  A committed amount is within the stock reported.  When the stock
    lookup returns [s] and [addProduct] or [updateProductAmount] commits a
    new cart, the entry that the lookup finds for the product in the new
    cart, if any, has an amount of at most [s].  Both providers. *)
Theorem committed_amount_within_stock (v : Variant) (JSON_stringify : list Product → string)
    (api : Api) (a : Action) (w : World) (productId s : Z) :
  wf_world w →
  (a = Add productId ∨ ∃ amount, a = Update productId amount) →
  stock_of api productId = Resolved (Amount s) →
  ∃ w', step_of v JSON_stringify api a w = (Normal tt, w') ∧
        (cartState w' ≠ cartState w →
         ∀ e, first_with_id productId (cart_list w') = Some e → amount e <= s).
Proof.
  intros Hwf Ha Hstock.
  destruct (step_spec v JSON_stringify api a w Hwf) as (w' & Hstep & _ & _ & Hout).
  exists w'. split; [done|]. intros Hchanged e He.
  destruct (verdict_of v api a (cart_list w)) as [updatedCart|n|] eqn:Hv; simpl in Hout.
  - destruct Hout as (Hcart & _). rewrite Hcart in He.
    apply (verdict_within_stock api a productId s (cart_list w) updatedCart e);
      [done|done| |done].
    destruct v; [done|]. by destruct Ha as [->|[amount ->]].
  - by destruct Hout as (Hc & _).
  - by subst.
Qed.

Lemma committed_amount_within_stock_witness :
  ∃ w', step_of Full sample_stringify sample_api (Update 1 5) (sample_world [shoe 1 2])
        = (Normal tt, w') ∧
        (cartState w' ≠ cartState (sample_world [shoe 1 2]) →
         ∀ e, first_with_id 1 (cart_list w') = Some e → amount e <= 5).
Proof.
  apply (committed_amount_within_stock Full sample_stringify sample_api (Update 1 5)
           (sample_world [shoe 1 2]) 1 5).
  - apply (bool_decide_unpack _). vm_compute. exact I.
  - right. exists 5. reflexivity.
  - reflexivity.
Defined.

(** ** Single operations *)

(** X7.  Removing a product that the cart does not hold changes nothing but
    the notifications: [removeProduct] returns, raises the remove-failed
    notification, keeps the cart array and every entry, sends no request and
    writes nothing to the store.  Both providers. *)
Theorem remove_absent_product (v : Variant) (JSON_stringify : list Product → string)
    (api : Api) (w : World) (productId : Z) :
  wf_world w →
  Forall (λ product, id product ≠ productId) (cart_list w) →
  ∃ w', step_of v JSON_stringify api (Remove productId) w = (Normal tt, w') ∧
        cartState w' = cartState w ∧ heap w' = heap w ∧ cart_list w' = cart_list w ∧
        toasts w' = RemoveFailed :: toasts w ∧
        requests w' = requests w ∧
        localStorage w' = localStorage w ∧ setItemCalls w' = setItemCalls w.
Proof.
  intros Hwf Hcart.
  destruct (step_spec v JSON_stringify api (Remove productId) w Hwf)
    as (w' & Hstep & _ & Hreq & Hout).
  exists w'. split; [done|].
  replace (verdict_of v api (Remove productId) (cart_list w))
    with (remove_verdict productId (cart_list w)) in Hout by (by destruct v).
  replace (queries_of v api (Remove productId) (cart_list w))
    with (@nil Request) in Hreq by (by destruct v).
  rewrite remove_absent in Hout by (by apply first_with_id_absent).
  destruct Hout as (Hc & Hh & Ht & Hls & Hcalls & _).
  split_and!; try done. by apply same_cart_list.
Qed.

Lemma remove_absent_product_witness :
  ∃ w', step_of Draft sample_stringify sample_api (Remove 7) (sample_world [shoe 1 2])
        = (Normal tt, w') ∧
        cartState w' = cartState (sample_world [shoe 1 2]) ∧
        heap w' = heap (sample_world [shoe 1 2]) ∧
        cart_list w' = cart_list (sample_world [shoe 1 2]) ∧
        toasts w' = RemoveFailed :: toasts (sample_world [shoe 1 2]) ∧
        requests w' = requests (sample_world [shoe 1 2]) ∧
        localStorage w' = localStorage (sample_world [shoe 1 2]) ∧
        setItemCalls w' = setItemCalls (sample_world [shoe 1 2]).
Proof.
  apply (remove_absent_product Draft sample_stringify sample_api
           (sample_world [shoe 1 2]) 7).
  - apply (bool_decide_unpack _). vm_compute. exact I.
  - repeat constructor; vm_compute; discriminate.
Defined.

(** X8.  The requests of a step.  [removeProduct] sends none.
    [updateProductAmount] sends at most the stock lookup of its product, and
    never a catalog lookup.  [addProduct] always sends the stock lookup of
    its product first; it sends the catalog lookup after it only when the
    cart holds no entry for the product, and then never ends in the
    out-of-stock notification.  Both providers. *)
Theorem requests_of_a_step (v : Variant) (JSON_stringify : list Product → string)
    (api : Api) (a : Action) (w : World) :
  wf_world w →
  ∃ w', step_of v JSON_stringify api a w = (Normal tt, w') ∧
    match a with
    | Remove _ => requests w' = requests w
    | Update productId _ =>
        requests w' = requests w ∨ requests w' = GetStock productId :: requests w
    | Add productId =>
        requests w' = GetStock productId :: requests w ∨
        (requests w' = GetProduct productId :: GetStock productId :: requests w ∧
         Forall (λ product, id product ≠ productId) (cart_list w) ∧
         (toasts w' = toasts w ∨ toasts w' = AddFailed :: toasts w))
    end.
Proof.
  intros Hwf.
  destruct (step_spec v JSON_stringify api a w Hwf) as (w' & Hstep & _ & Hreq & Hout).
  exists w'. split; [done|].
  destruct a as [productId|productId|productId a].
  - replace (queries_of v api (Add productId) (cart_list w))
      with (queries api (Add productId) (cart_list w)) in Hreq by (by destruct v).
    replace (verdict_of v api (Add productId) (cart_list w))
      with (add_verdict api productId (cart_list w)) in Hout by (by destruct v).
    unfold queries in Hreq. unfold add_verdict in Hout.
    destruct (stock_reading (stock_of api productId)) as [stockAmount|]; [|by left].
    destruct (first_with_id productId (cart_list w)) eqn:Hfirst; [by left|].
    destruct (js_gt _ stockAmount); [by left|].
    right. split_and!; [done|by apply first_with_id_absent|].
    destruct (product_of api productId); simpl in Hout.
    + right. by destruct Hout as (_ & _ & ? & _).
    + left. by destruct Hout as (_ & _ & ? & _).
  - by destruct v.
  - destruct v; simpl in Hreq; [|by left].
    case_bool_decide; [by left|by right].
Qed.

Lemma requests_of_a_step_witness :
  ∃ w', step_of Full sample_stringify sample_api (Add 2) (sample_world [shoe 1 2])
        = (Normal tt, w') ∧
        (requests w' = GetStock 2 :: requests (sample_world [shoe 1 2]) ∨
         (requests w' = GetProduct 2 :: GetStock 2 :: requests (sample_world [shoe 1 2]) ∧
          Forall (λ product, id product ≠ 2) (cart_list (sample_world [shoe 1 2])) ∧
          (toasts w' = toasts (sample_world [shoe 1 2]) ∨
           toasts w' = AddFailed :: toasts (sample_world [shoe 1 2])))).
Proof.
  apply (requests_of_a_step Full sample_stringify sample_api (Add 2)
           (sample_world [shoe 1 2])).
  apply (bool_decide_unpack _). vm_compute. exact I.
Defined.

(** X9.  The notifications of a step.  A step raises at most one
    notification, and when it raises one the cart array is the one before.
    [addProduct] raises only add-failed or out-of-stock, [removeProduct]
    only remove-failed, [updateProductAmount] only update-failed or
    out-of-stock; and out-of-stock is raised only when the stock lookup
    returned a number below the amount wanted.  Both providers. *)
Theorem notifications_of_a_step (v : Variant) (JSON_stringify : list Product → string)
    (api : Api) (a : Action) (w : World) :
  wf_world w →
  ∃ w', step_of v JSON_stringify api a w = (Normal tt, w') ∧
    (toasts w' = toasts w ∨
     ∃ n, toasts w' = n :: toasts w ∧ cartState w' = cartState w ∧
       match a with
       | Add productId =>
           n = AddFailed ∨
           (n = OutOfStock ∧
            ∃ s, stock_of api productId = Resolved (Amount s) ∧
                 s < current_amount productId (cart_list w) + 1)
       | Remove _ => n = RemoveFailed
       | Update productId amount =>
           n = UpdateFailed ∨
           (n = OutOfStock ∧
            ∃ s, stock_of api productId = Resolved (Amount s) ∧ s < amount)
       end).
Proof.
  intros Hwf.
  destruct (step_spec v JSON_stringify api a w Hwf) as (w' & Hstep & _ & _ & Hout).
  exists w'. split; [done|].
  destruct (verdict_of v api a (cart_list w)) as [updatedCart|n|] eqn:Hv; simpl in Hout.
  - left. by destruct Hout as (_ & _ & ? & _).
  - right. exists n. destruct Hout as (Hc & _ & Ht & _). split_and!; [done|done|].
    assert (verdict api a (cart_list w) = Notify n) as Hn by (by destruct v, a).
    destruct a as [productId|productId|productId amount]; simpl in Hn.
    + destruct (add_verdict_cases api productId (cart_list w))
        as [H|[[H ?]|[(? & ? & ? & _ & _ & _ & _ & H)|(_ & _ & ? & _ & H)]]];
        rewrite H in Hn; try done; injection Hn as <-; auto.
    + destruct (remove_verdict_cases productId (cart_list w))
        as [[_ H]|(? & ? & ? & _ & _ & _ & H)];
        rewrite H in Hn; try done; by injection Hn as <-.
    + destruct (update_verdict_cases api productId amount (cart_list w))
        as [[_ H]|[[_ H]|[(_ & H & ?)|(_ & ? & ? & ? & _ & _ & _ & _ & H)]]];
        rewrite H in Hn; try done; injection Hn as <-; auto.
  - left. by subst.
Qed.

Lemma notifications_of_a_step_witness :
  ∃ w', step_of Full sample_stringify sample_api (Update 1 9) (sample_world [shoe 1 2])
        = (Normal tt, w') ∧
    (toasts w' = toasts (sample_world [shoe 1 2]) ∨
     ∃ n, toasts w' = n :: toasts (sample_world [shoe 1 2]) ∧
       cartState w' = cartState (sample_world [shoe 1 2]) ∧
       (n = UpdateFailed ∨
        (n = OutOfStock ∧ ∃ s, stock_of sample_api 1 = Resolved (Amount s) ∧ s < 9))).
Proof.
  apply (notifications_of_a_step Full sample_stringify sample_api (Update 1 9)
           (sample_world [shoe 1 2])).
  apply (bool_decide_unpack _). vm_compute. exact I.
Defined.

(** X10.  A stock response whose [amount] is undefined, or is any other
    value that the comparison coerces to NaN, lifts the limit (a null
    amount does not: it compares as 0).  The comparison with it is false,
    so for a product in the cart, with an amount whose increment is exact,
    [addProduct] leaves the entry with that amount plus 1, and
    [updateProductAmount] of [UseCart] leaves it with any requested amount
    of at least 1; in both cases the entry keeps its id, title, price and
    image, the other entries are as they were and nothing is notified. *)
Theorem missing_stock_amount_lifts_limit (JSON_stringify : list Product → string)
    (api : Api) (w : World) (productId a : Z) (l1 l2 : list Product) (e : Product) :
  wf_world w →
  stock_of api productId = Resolved NoAmount →
  cart_list w = l1 ++ e :: l2 →
  Forall (λ product, id product ≠ productId) l1 → id e = productId →
  increment_exact (amount e) →
  1 <= a →
  (∀ v, ∃ w', step_of v JSON_stringify api (Add productId) w = (Normal tt, w') ∧
              cart_list w' =
                l1 ++ mkProduct (id e) (title e) (price e) (image e) (amount e + 1) :: l2 ∧
              toasts w' = toasts w) ∧
  (∃ w', UseCart.step JSON_stringify api (Update productId a) w = (Normal tt, w') ∧
         cart_list w' = l1 ++ mkProduct (id e) (title e) (price e) (image e) a :: l2 ∧
         toasts w' = toasts w).
Proof.
  intros Hwf Hstock Hcart Hl1 He _ Ha. split.
  - intros v.
    destruct (step_spec v JSON_stringify api (Add productId) w Hwf)
      as (w' & Hstep & _ & _ & Hout).
    exists w'. split; [done|].
    replace (verdict_of v api (Add productId) (cart_list w))
      with (add_verdict api productId (cart_list w)) in Hout by (by destruct v).
    unfold add_verdict, current_amount in Hout.
    rewrite Hstock, Hcart, (first_with_id_found _ _ _ _ Hl1 He) in Hout. simpl in Hout.
    rewrite (assign_first_found _ _ _ _ _ Hl1 He) in Hout.
    destruct Hout as (Hc & _ & Ht & _).
    split; [|done]. rewrite Hc. reflexivity.
  - destruct (step_full JSON_stringify api (Update productId a) w Hwf)
      as (w' & Hstep & _ & _ & Hout).
    exists w'. split; [done|].
    simpl in Hout. unfold update_verdict in Hout.
    rewrite bool_decide_eq_false_2, Hstock, Hcart in Hout by lia. simpl in Hout.
    rewrite (first_with_id_found _ _ _ _ Hl1 He) in Hout.
    rewrite (assign_first_found _ _ _ _ _ Hl1 He) in Hout.
    destruct Hout as (Hc & _ & Ht & _).
    split; [|done]. rewrite Hc. reflexivity.
Qed.

Lemma missing_stock_amount_lifts_limit_witness :
  (∀ v, ∃ w', step_of v sample_stringify empty_stock_api (Add 1) (sample_world [shoe 1 2])
              = (Normal tt, w') ∧
              cart_list w' =
                [] ++ mkProduct 1 "Tenis" (1799 # 10) "shoe.jpg" (2 + 1) :: [] ∧
              toasts w' = toasts (sample_world [shoe 1 2])) ∧
  (∃ w', UseCart.step sample_stringify empty_stock_api (Update 1 1000)
           (sample_world [shoe 1 2]) = (Normal tt, w') ∧
         cart_list w' = [] ++ mkProduct 1 "Tenis" (1799 # 10) "shoe.jpg" 1000 :: [] ∧
         toasts w' = toasts (sample_world [shoe 1 2])).
Proof.
  apply (missing_stock_amount_lifts_limit sample_stringify empty_stock_api
           (sample_world [shoe 1 2]) 1 1000 [] [] (shoe 1 2)).
  - apply (bool_decide_unpack _). vm_compute. exact I.
  - reflexivity.
  - reflexivity.
  - constructor.
  - reflexivity.
  - unfold increment_exact. simpl. lia.
  - lia.
Defined.

(** ** Operations in sequence *)

(** X11.  Adding a product and removing it again restores the cart.  For a
    product that the cart does not hold, with stock of at least 1 and a
    catalog that answers with that product, [addProduct] followed by
    [removeProduct] of the same id leaves the cart list as it was, raises no
    notification, and the store ends with the serialization of that list.
    Both providers. *)
Theorem add_then_remove_restores (v : Variant) (JSON_stringify : list Product → string)
    (api1 api2 : Api) (w : World) (productId s : Z) (product : Product) :
  wf_world w → settled_for v w →
  Forall (λ entry, id entry ≠ productId) (cart_list w) →
  stock_of api1 productId = Resolved (Amount s) → 1 <= s →
  product_of api1 productId = Resolved product → id product = productId →
  let w2 := run v JSON_stringify [(api1, Add productId); (api2, Remove productId)] w in
  cart_list w2 = cart_list w ∧ toasts w2 = toasts w ∧
  localStorage w2 = Some (JSON_stringify (cart_list w)).
Proof.
  intros Hwf Hsettled Hcart Hstock Hs Hproduct Hid. simpl.
  destruct (step_spec v JSON_stringify api1 (Add productId) w Hwf)
    as (w1 & -> & Hwf1 & _ & Hout1). simpl.
  replace (verdict_of v api1 (Add productId) (cart_list w))
    with (add_verdict api1 productId (cart_list w)) in Hout1 by (by destruct v).
  unfold add_verdict, current_amount in Hout1.
  rewrite Hstock, (proj2 (first_with_id_absent _ _) Hcart), Hproduct in Hout1.
  simpl in Hout1. rewrite bool_decide_eq_false_2 in Hout1 by lia.
  destruct Hout1 as (Hcart1 & _ & Ht1 & Hp1).
  destruct (Hp1 Hsettled) as (_ & _ & Hsettled1).
  destruct (step_spec v JSON_stringify api2 (Remove productId) w1 Hwf1)
    as (w2 & -> & _ & _ & Hout2). simpl.
  replace (verdict_of v api2 (Remove productId) (cart_list w1))
    with (remove_verdict productId (cart_list w1)) in Hout2 by (by destruct v).
  rewrite Hcart1, (remove_found _ _ [] (with_amount 1 product) Hcart Hid) in Hout2.
  rewrite app_nil_r in Hout2.
  destruct Hout2 as (Hcart2 & _ & Ht2 & Hp2).
  destruct (Hp2 Hsettled1) as (Hls2 & _).
  split_and!; [done|congruence|done].
Qed.

Lemma add_then_remove_restores_witness :
  let w2 := run Full sample_stringify [(sample_api, Add 2); (offline_api, Remove 2)]
              (sample_world [shoe 1 2]) in
  cart_list w2 = cart_list (sample_world [shoe 1 2]) ∧
  toasts w2 = toasts (sample_world [shoe 1 2]) ∧
  localStorage w2 = Some (sample_stringify (cart_list (sample_world [shoe 1 2]))).
Proof.
  apply (add_then_remove_restores Full sample_stringify sample_api offline_api
           (sample_world [shoe 1 2]) 2 5 (shoe 2 0)).
  - apply (bool_decide_unpack _). vm_compute. exact I.
  - apply (bool_decide_unpack _). vm_compute. exact I.
  - repeat constructor; vm_compute; discriminate.
  - reflexivity.
  - lia.
  - reflexivity.
  - reflexivity.
Defined.

Lemma update_verdict_again (api : Api) (productId a : Z) (cart updatedCart : list Product) :
  update_verdict api productId a cart = Commit updatedCart →
  update_verdict api productId a updatedCart = Commit updatedCart.
Proof.
  unfold update_verdict. case_bool_decide; [done|].
  destruct (stock_reading (stock_of api productId)) as [stockAmount|]; [|done].
  destruct (js_gt a stockAmount); [done|].
  destruct (first_with_id productId cart) as [e|] eqn:Hfirst; [|done].
  apply first_with_id_split in Hfirst as (l1 & l2 & -> & Hl1 & He).
  rewrite (assign_first_found _ _ _ _ _ Hl1 He). intros [= <-].
  rewrite (first_with_id_found _ l1 l2 (with_amount a e)) by done.
  by rewrite (assign_first_found _ _ l1 l2 (with_amount a e)).
Qed.

(** X12.  [updateProductAmount] of [UseCart] twice in a row, with the same
    answers of the stock service, gives the cart list of doing it once.  The
    second call is not short-circuited, though: when the first one
    committed, the second commits a new array again and writes the same
    serialization to the store a second time. *)
Theorem update_twice (JSON_stringify : list Product → string) (api : Api)
    (w : World) (productId a : Z) :
  wf_world w → settled w →
  let w1 := (UseCart.step JSON_stringify api (Update productId a) w).2 in
  let w2 := (UseCart.step JSON_stringify api (Update productId a) w1).2 in
  cart_list w2 = cart_list w1 ∧
  (cartState w1 ≠ cartState w →
   cartState w2 ≠ cartState w1 ∧
   setItemCalls w2 = JSON_stringify (cart_list w1) :: JSON_stringify (cart_list w1)
                     :: setItemCalls w).
Proof.
  intros Hwf Hsettled. simpl.
  destruct (step_full JSON_stringify api (Update productId a) w Hwf)
    as (w1 & -> & Hwf1 & _ & Hout1). simpl.
  destruct (step_full JSON_stringify api (Update productId a) w1 Hwf1)
    as (w2 & -> & _ & _ & Hout2). simpl.
  simpl in Hout1, Hout2.
  destruct (update_verdict api productId a (cart_list w)) as [updatedCart|n|] eqn:Hv;
    simpl in Hout1.
  - destruct Hout1 as (Hcart1 & Href1 & _ & Hp1).
    destruct (Hp1 Hsettled) as (_ & Hcalls1 & Hsettled1).
    rewrite Hcart1, (update_verdict_again _ _ _ _ _ Hv) in Hout2. simpl in Hout2.
    destruct Hout2 as (Hcart2 & Href2 & _ & Hp2).
    destruct (Hp2 Hsettled1) as (_ & Hcalls2 & _).
    split; [congruence|]. intros _. split; [congruence|].
    by rewrite Hcalls2, Hcalls1, Hcart1.
  - destruct Hout1 as (Hc1 & Hh1 & _).
    rewrite (same_cart_list w w1), Hv in Hout2 by done. simpl in Hout2.
    destruct Hout2 as (Hc2 & Hh2 & _).
    split; [by apply same_cart_list|]. by intros [].
  - subst w1. rewrite Hv in Hout2. simpl in Hout2. subst w2.
    split; [done|]. by intros [].
Qed.

Lemma update_twice_witness :
  let w1 := (UseCart.step sample_stringify sample_api (Update 1 4)
               (sample_world [shoe 1 2])).2 in
  let w2 := (UseCart.step sample_stringify sample_api (Update 1 4) w1).2 in
  cart_list w2 = cart_list w1 ∧
  (cartState w1 ≠ cartState (sample_world [shoe 1 2]) →
   cartState w2 ≠ cartState w1 ∧
   setItemCalls w2 = sample_stringify (cart_list w1) :: sample_stringify (cart_list w1)
                     :: setItemCalls (sample_world [shoe 1 2])).
Proof.
  apply (update_twice sample_stringify sample_api (sample_world [shoe 1 2]) 1 4).
  - apply (bool_decide_unpack _). vm_compute. exact I.
  - apply (bool_decide_unpack _). vm_compute. exact I.
Defined.

(** ** The shallow copy *)

Lemma render_frame (JSON_stringify : list Product → string) (w : World) :
  heap (UseCart.render JSON_stringify w) = heap w ∧
  cartState (UseCart.render JSON_stringify w) = cartState w.
Proof. unfold UseCart.render. by repeat case_bool_decide. Qed.

Lemma rerender_frame (JSON_stringify : list Product → string) (before : Array) (w : World) :
  heap (UseCart.rerender JSON_stringify before w) = heap w ∧
  cartState (UseCart.rerender JSON_stringify before w) = cartState w.
Proof. unfold UseCart.rerender. case_bool_decide; [done|apply render_frame]. Qed.

Lemma persist_now_frame (JSON_stringify : list Product → string) (before : Array) (w : World) :
  heap (persist_now JSON_stringify before w) = heap w ∧
  cartState (persist_now JSON_stringify before w) = cartState w.
Proof. unfold persist_now. by case_bool_decide. Qed.

(** A step leaves the heap and the cart array that the handler of [UseCart]
    leaves. *)
Lemma step_frame (v : Variant) (JSON_stringify : list Product → string) (api : Api)
    (a : Action) (w : World) :
  wf_world w →
  (∀ productId amount, v = Draft → a ≠ Update productId amount) →
  heap (step_of v JSON_stringify api a w).2 = heap (UseCart.handle api (cartState w) a w).2 ∧
  cartState (step_of v JSON_stringify api a w).2
  = cartState (UseCart.handle api (cartState w) a w).2.
Proof.
  intros Hwf Ha. destruct v; simpl.
  - unfold UseCart.step. destruct (UseCart.handle api (cartState w) a w) as [c w1].
    apply rerender_frame.
  - unfold Part000.step.
    destruct a as [productId|productId|productId amount]; simpl.
    + rewrite draft_addProduct by done.
      destruct (UseCart.addProduct api (cartState w) productId w) as [c w1].
      apply persist_now_frame.
    + rewrite draft_removeProduct by done.
      destruct (UseCart.removeProduct (cartState w) productId w) as [c w1].
      apply persist_now_frame.
    + by destruct (Ha productId amount).
Qed.

Lemma update_handle_items (api : Api) (productId a : Z) (w : World) :
  items (cartState (UseCart.updateProductAmount api (cartState w) productId a w).2)
  = items (cartState w).
Proof.
  unfold UseCart.updateProductAmount, try_catch.
  case_bool_decide; [done|].
  rewrite bind_stock_reading.
  destruct (stock_reading (stock_of api productId)) as [stockAmount|]; [|done].
  destruct (js_gt a stockAmount); [done|].
  rewrite bind_spread. cbv beta. rewrite bind_array_find. cbv beta.
  unfold bind, assign_amount. wsimpl.
  destruct (find (has_id (heap w) productId) (items (cartState w))) as [l|]; [|done].
  wsimpl. by destruct (heap w !! l).
Qed.

Lemma add_handle_items (api : Api) (productId : Z) (w : World) (l : loc) :
  find (has_id (heap w) productId) (items (cartState w)) = Some l →
  items (cartState (UseCart.addProduct api (cartState w) productId w).2)
  = items (cartState w).
Proof.
  intros Hfind. unfold UseCart.addProduct, try_catch.
  rewrite bind_spread. cbv beta. rewrite bind_array_find. cbv beta.
  rewrite bind_stock_reading. wsimpl. rewrite Hfind.
  destruct (stock_reading (stock_of api productId)) as [stockAmount|]; [|done].
  unfold bind, read, assign_amount. wsimpl.
  destruct (heap w !! l) as [product|] eqn:Hl; [|done]. wsimpl.
  destruct (js_gt _ stockAmount); [done|]. wsimpl. by rewrite Hl.
Qed.


(** X13.  Amounts are written in place.  For a product that the cart holds,
    after [addProduct] or [updateProductAmount] the array that was the cart
    before the call denotes the same list as the cart after it: the copy
    shares the entry objects, so a new amount shows through the previous
    array too.  Both providers. *)
Theorem amount_written_in_place (v : Variant) (JSON_stringify : list Product → string)
    (api : Api) (a : Action) (w : World) (productId : Z) (e : Product) :
  wf_world w →
  first_with_id productId (cart_list w) = Some e →
  (a = Add productId ∨ ∃ amount, a = Update productId amount) →
  view (heap (step_of v JSON_stringify api a w).2) (cartState w)
  = cart_list (step_of v JSON_stringify api a w).2.
Proof.
  intros Hwf He Ha.
  assert (∀ b, (∀ p q, v = Draft → b ≠ Update p q) →
               items (cartState (UseCart.handle api (cartState w) b w).2)
               = items (cartState w) →
               view (heap (step_of v JSON_stringify api b w).2) (cartState w)
               = cart_list (step_of v JSON_stringify api b w).2) as Hshared.
  { intros b Hb Hitems.
    destruct (step_frame v JSON_stringify api b w Hwf Hb) as [Hheap Hcart].
    unfold cart_list, view. by rewrite Hheap, Hcart, Hitems. }
  destruct Ha as [->|[amount ->]].
  - apply Hshared; [done|]. simpl.
    pose proof (find_denotes (heap w) productId _ _ (cart_denotes w Hwf)) as Hfind.
    destruct (find (has_id (heap w) productId) (items (cartState w))) as [l|] eqn:Hl.
    + by eapply add_handle_items.
    + congruence.
  - destruct v; [|done].
    apply Hshared; [done|]. apply update_handle_items.
Qed.

Lemma amount_written_in_place_witness :
  view (heap (step_of Full sample_stringify sample_api (Update 1 4)
                (sample_world [shoe 1 2; shoe 2 1])).2)
       (cartState (sample_world [shoe 1 2; shoe 2 1]))
  = cart_list (step_of Full sample_stringify sample_api (Update 1 4)
                 (sample_world [shoe 1 2; shoe 2 1])).2.
Proof.
  apply (amount_written_in_place Full sample_stringify sample_api (Update 1 4)
           (sample_world [shoe 1 2; shoe 2 1]) 1 (shoe 1 2)).
  - apply (bool_decide_unpack _). vm_compute. exact I.
  - reflexivity.
  - right. exists 4. reflexivity.
Defined.



(** ** The shape of the cart *)

Lemma others_unchanged (productId : Z) (l1 l2 : list Product) (e e' : Product) :
  id e = productId → id e' = productId →
  filter (λ product, id product ≠ productId) (l1 ++ e' :: l2)
  = filter (λ product, id product ≠ productId) (l1 ++ e :: l2).
Proof.
  intros He He'. rewrite !filter_app, !filter_cons.
  by rewrite !decide_False by (intros H; by apply H).
Qed.

Lemma others_after_removal (productId : Z) (l1 l2 : list Product) (e : Product) :
  id e = productId →
  filter (λ product, id product ≠ productId) (l1 ++ l2)
  = filter (λ product, id product ≠ productId) (l1 ++ e :: l2).
Proof.
  intros He. rewrite !filter_app, filter_cons.
  by rewrite decide_False by (intros H; by apply H).
Qed.

(** X15.  [updateProductAmount] changes nothing but an amount, and only for
    its product: after the call, whatever its outcome, the cart holds the
    same entries in the same order up to their amounts, and the entries of
    every other product are exactly as they were.  Both providers. *)
Theorem update_keeps_shape (v : Variant) (JSON_stringify : list Product → string)
    (api : Api) (w : World) (productId a : Z) :
  wf_world w →
  ∃ w', step_of v JSON_stringify api (Update productId a) w = (Normal tt, w') ∧
        with_amount 0 <$> cart_list w' = with_amount 0 <$> cart_list w ∧
        filter (λ product, id product ≠ productId) (cart_list w')
        = filter (λ product, id product ≠ productId) (cart_list w).
Proof.
  intros Hwf.
  destruct (step_spec v JSON_stringify api (Update productId a) w Hwf)
    as (w' & Hstep & _ & _ & Hout).
  exists w'. split; [done|].
  destruct (verdict_of v api (Update productId a) (cart_list w))
    as [updatedCart|n|] eqn:Hv; simpl in Hout.
  - destruct Hout as (-> & _).
    assert (update_verdict api productId a (cart_list w) = Commit updatedCart) as Hu
      by (by destruct v).
    destruct (update_verdict_cases api productId a (cart_list w))
      as [[_ H]|[[_ H]|[(_ & H & _)|(_ & l1 & e & l2 & Hcart & _ & He & _ & H)]]];
      rewrite H in Hu; try done.
    injection Hu as <-. rewrite Hcart. split.
    + by rewrite !fmap_app, !fmap_cons.
    + by apply others_unchanged.
  - destruct Hout as (Hc & Hh & _). by rewrite (same_cart_list w w').
  - by subst.
Qed.

Lemma update_keeps_shape_witness :
  ∃ w', step_of Full sample_stringify sample_api (Update 2 3)
          (sample_world [shoe 1 2; shoe 2 1]) = (Normal tt, w') ∧
        with_amount 0 <$> cart_list w'
        = with_amount 0 <$> cart_list (sample_world [shoe 1 2; shoe 2 1]) ∧
        filter (λ product, id product ≠ 2) (cart_list w')
        = filter (λ product, id product ≠ 2) (cart_list (sample_world [shoe 1 2; shoe 2 1])).
Proof.
  apply (update_keeps_shape Full sample_stringify sample_api
           (sample_world [shoe 1 2; shoe 2 1]) 2 3).
  apply (bool_decide_unpack _). vm_compute. exact I.
Defined.

(** X16.  [removeProduct] only removes, and at most one entry: after the
    call, whatever its outcome, the cart list is a sublist of the list
    before (same entries, same order) and is shorter by at most one, and the
    entries of every other product are exactly as they were.  Both
    providers. *)
Theorem remove_only_removes (v : Variant) (JSON_stringify : list Product → string)
    (api : Api) (w : World) (productId : Z) :
  wf_world w →
  ∃ w', step_of v JSON_stringify api (Remove productId) w = (Normal tt, w') ∧
        cart_list w' `sublist_of` cart_list w ∧
        (length (cart_list w) ≤ S (length (cart_list w')))%nat ∧
        filter (λ product, id product ≠ productId) (cart_list w')
        = filter (λ product, id product ≠ productId) (cart_list w).
Proof.
  intros Hwf.
  destruct (step_spec v JSON_stringify api (Remove productId) w Hwf)
    as (w' & Hstep & _ & _ & Hout).
  exists w'. split; [done|].
  replace (verdict_of v api (Remove productId) (cart_list w))
    with (remove_verdict productId (cart_list w)) in Hout by (by destruct v).
  destruct (remove_verdict_cases productId (cart_list w))
    as [[_ H]|(l1 & e & l2 & Hcart & _ & He & H)]; rewrite H in Hout; simpl in Hout.
  - destruct Hout as (Hc & Hh & _). rewrite (same_cart_list w w') by done.
    split_and!; [done|lia|done].
  - destruct Hout as (-> & _). rewrite Hcart. split_and!.
    + apply sublist_app; [done|]. by apply sublist_cons.
    + rewrite !length_app. simpl. lia.
    + by apply others_after_removal.
Qed.

Lemma remove_only_removes_witness :
  ∃ w', step_of Draft sample_stringify sample_api (Remove 1)
          (sample_world [shoe 1 2; shoe 2 1]) = (Normal tt, w') ∧
        cart_list w' `sublist_of` cart_list (sample_world [shoe 1 2; shoe 2 1]) ∧
        (length (cart_list (sample_world [shoe 1 2; shoe 2 1]))
         ≤ S (length (cart_list w')))%nat ∧
        filter (λ product, id product ≠ 1) (cart_list w')
        = filter (λ product, id product ≠ 1) (cart_list (sample_world [shoe 1 2; shoe 2 1])).
Proof.
  apply (remove_only_removes Draft sample_stringify sample_api
           (sample_world [shoe 1 2; shoe 2 1]) 1).
  apply (bool_decide_unpack _). vm_compute. exact I.
Defined.

(** X17.  [addProduct] does exactly one of three things, whatever the
    collaborators answer, when the entry that the lookup finds for the
    product (if any) has an amount whose increment is exact: it raises one
    notification and leaves the cart as it was; or it leaves that entry
    with its amount plus 1 and with the id, title, price and image it had,
    and every other entry as it was; or, the cart holding no entry for the
    product, it appends one entry with amount 1 and the id, title, price
    and image of the product of the catalog.  It never removes or reorders
    entries.  Both providers. *)
Theorem add_outcomes (v : Variant) (JSON_stringify : list Product → string)
    (api : Api) (w : World) (productId : Z) :
  wf_world w →
  (∀ e, first_with_id productId (cart_list w) = Some e → increment_exact (amount e)) →
  ∃ w', step_of v JSON_stringify api (Add productId) w = (Normal tt, w') ∧
    ((cart_list w' = cart_list w ∧ cartState w' = cartState w ∧
      ∃ n, toasts w' = n :: toasts w) ∨
     (∃ l1 e l2,
        cart_list w = l1 ++ e :: l2 ∧
        Forall (λ product, id product ≠ productId) l1 ∧ id e = productId ∧
        cart_list w' =
          l1 ++ mkProduct (id e) (title e) (price e) (image e) (amount e + 1) :: l2 ∧
        toasts w' = toasts w) ∨
     (Forall (λ product, id product ≠ productId) (cart_list w) ∧
      ∃ product,
        product_of api productId = Resolved product ∧
        cart_list w' =
          cart_list w
          ++ [mkProduct (id product) (title product) (price product) (image product) 1] ∧
        toasts w' = toasts w)).
Proof.
  intros Hwf _.
  destruct (step_spec v JSON_stringify api (Add productId) w Hwf)
    as (w' & Hstep & _ & _ & Hout).
  exists w'. split; [done|].
  replace (verdict_of v api (Add productId) (cart_list w))
    with (add_verdict api productId (cart_list w)) in Hout by (by destruct v).
  destruct (add_verdict_cases api productId (cart_list w))
    as [H|[[H _]|[(l1 & e & l2 & Hcart & Hl1 & He & _ & H)
                 |(Hcart & _ & product & Hproduct & H)]]];
    rewrite H in Hout; simpl in Hout.
  - left. destruct Hout as (Hc & Hh & Ht & _).
    split_and!; [by apply same_cart_list|done|by eexists].
  - left. destruct Hout as (Hc & Hh & Ht & _).
    split_and!; [by apply same_cart_list|done|by eexists].
  - right; left. destruct Hout as (Hc & _ & Ht & _).
    exists l1, e, l2. split_and!; [done|done|done| |done].
    rewrite Hc. reflexivity.
  - right; right. destruct Hout as (Hc & _ & Ht & _).
    split; [done|]. exists product. split_and!; [done| |done].
    rewrite Hc. reflexivity.
Qed.

Lemma add_outcomes_witness :
  ∃ w', step_of Full sample_stringify sample_api (Add 1) (sample_world [shoe 1 2])
        = (Normal tt, w') ∧
    ((cart_list w' = cart_list (sample_world [shoe 1 2]) ∧
      cartState w' = cartState (sample_world [shoe 1 2]) ∧
      ∃ n, toasts w' = n :: toasts (sample_world [shoe 1 2])) ∨
     (∃ l1 e l2,
        cart_list (sample_world [shoe 1 2]) = l1 ++ e :: l2 ∧
        Forall (λ product, id product ≠ 1) l1 ∧ id e = 1 ∧
        cart_list w' =
          l1 ++ mkProduct (id e) (title e) (price e) (image e) (amount e + 1) :: l2 ∧
        toasts w' = toasts (sample_world [shoe 1 2])) ∨
     (Forall (λ product, id product ≠ 1) (cart_list (sample_world [shoe 1 2])) ∧
      ∃ product,
        product_of sample_api 1 = Resolved product ∧
        cart_list w' =
          cart_list (sample_world [shoe 1 2])
          ++ [mkProduct (id product) (title product) (price product) (image product) 1] ∧
        toasts w' = toasts (sample_world [shoe 1 2]))).
Proof.
  apply (add_outcomes Full sample_stringify sample_api (sample_world [shoe 1 2]) 1).
  - apply (bool_decide_unpack _). vm_compute. exact I.
  - intros e He. vm_compute in He. injection He as <-.
    unfold increment_exact. simpl. lia.
Defined.

(** ** Rendering again *)

(** X18.  A render of [UseCart] that follows no change of the cart (the
    parent rendered again, say) writes nothing: on a settled world the
    persistence effect leaves the store and its write log as they are, and
    the world stays settled, with the same cart. *)
Theorem render_without_change_writes_nothing (JSON_stringify : list Product → string)
    (w : World) :
  settled w →
  localStorage (UseCart.render JSON_stringify w) = localStorage w ∧
  setItemCalls (UseCart.render JSON_stringify w) = setItemCalls w ∧
  cartState (UseCart.render JSON_stringify w) = cartState w ∧
  heap (UseCart.render JSON_stringify w) = heap w ∧
  settled (UseCart.render JSON_stringify w).
Proof.
  intros [Hprev Hdeps]. unfold UseCart.render, settled. wsimpl.
  rewrite Hprev. simpl.
  case_bool_decide as Hsame; wsimpl.
  - by rewrite Hdeps.
  - rewrite bool_decide_eq_false_2 by (intros H; by apply H). by wsimpl.
Qed.

Lemma render_without_change_writes_nothing_witness :
  localStorage (UseCart.render sample_stringify (sample_world [shoe 1 2]))
  = localStorage (sample_world [shoe 1 2]) ∧
  setItemCalls (UseCart.render sample_stringify (sample_world [shoe 1 2]))
  = setItemCalls (sample_world [shoe 1 2]) ∧
  cartState (UseCart.render sample_stringify (sample_world [shoe 1 2]))
  = cartState (sample_world [shoe 1 2]) ∧
  heap (UseCart.render sample_stringify (sample_world [shoe 1 2]))
  = heap (sample_world [shoe 1 2]) ∧
  settled (UseCart.render sample_stringify (sample_world [shoe 1 2])).
Proof.
  apply (render_without_change_writes_nothing sample_stringify (sample_world [shoe 1 2])).
  apply (bool_decide_unpack _). vm_compute. exact I.
Defined.

(** ** The two providers over a session *)

Lemma step_agree (JSON_stringify : list Product → string) (api : Api) (a : Action)
    (w1 w2 : World) :
  wf_world w1 → wf_world w2 → settled w1 →
  (∀ productId amount, a ≠ Update productId amount) →
  cart_list w1 = cart_list w2 → toasts w1 = toasts w2 →
  localStorage w1 = localStorage w2 → setItemCalls w1 = setItemCalls w2 →
  requests w1 = requests w2 →
  let w1' := (UseCart.step JSON_stringify api a w1).2 in
  let w2' := (Part000.step JSON_stringify api a w2).2 in
  wf_world w1' ∧ wf_world w2' ∧ settled w1' ∧
  cart_list w1' = cart_list w2' ∧ toasts w1' = toasts w2' ∧
  localStorage w1' = localStorage w2' ∧ setItemCalls w1' = setItemCalls w2' ∧
  requests w1' = requests w2'.
Proof.
  intros Hwf1 Hwf2 Hsettled Ha Hcart Ht Hls Hcalls Hreq. simpl.
  destruct (step_spec Full JSON_stringify api a w1 Hwf1)
    as (w1' & Hstep1 & Hwf1' & Hreq1 & Hout1).
  destruct (step_spec Draft JSON_stringify api a w2 Hwf2)
    as (w2' & Hstep2 & Hwf2' & Hreq2 & Hout2).
  simpl in Hstep1, Hstep2. rewrite Hstep1, Hstep2. simpl.
  replace (verdict_of Draft api a (cart_list w2)) with (verdict_of Full api a (cart_list w1))
    in Hout2 by (rewrite Hcart; by destruct a as [| |p q]; [| |destruct (Ha p q)]).
  replace (queries_of Draft api a (cart_list w2)) with (queries_of Full api a (cart_list w1))
    in Hreq2 by (rewrite Hcart; by destruct a as [| |p q]; [| |destruct (Ha p q)]).
  assert (requests w1' = requests w2') as Hreq' by congruence.
  destruct (verdict_of Full api a (cart_list w1)) as [updatedCart|n|]; simpl in Hout1, Hout2.
  - destruct Hout1 as (Hc1 & _ & Ht1 & Hp1), Hout2 as (Hc2 & _ & Ht2 & Hp2).
    destruct (Hp1 Hsettled) as (Hls1 & Hcalls1 & Hsettled1).
    destruct (Hp2 I) as (Hls2 & Hcalls2 & _).
    split_and!; try done; congruence.
  - destruct Hout1 as (Hc1 & Hh1 & Ht1 & Hls1 & Hcalls1 & Hp1).
    destruct Hout2 as (Hc2 & Hh2 & Ht2 & Hls2 & Hcalls2 & _).
    split_and!; try done; try congruence; [by apply Hp1|].
    by rewrite (same_cart_list w1 w1'), (same_cart_list w2 w2').
  - subst. by split_and!.
Qed.

(** X19.  Over a whole session of additions and removals the draft and
    [UseCart] cannot be told apart: mounted on the same snapshot and given
    the same actions and the same answers of the collaborators, they end
    with the same cart list, the same notifications, the same requests
    sent, the same stored value and the same sequence of writes. *)
Theorem sessions_agree (JSON_stringify : list Product → string)
    (entries : list Product) (stored : option string) (script : list (Api * Action)) :
  Forall (λ s, ∀ productId amount, s.2 ≠ Update productId amount) script →
  let w1 := run Full JSON_stringify script (mount_of Full JSON_stringify entries stored) in
  let w2 := run Draft JSON_stringify script (mount_of Draft JSON_stringify entries stored) in
  cart_list w1 = cart_list w2 ∧ toasts w1 = toasts w2 ∧ requests w1 = requests w2 ∧
  localStorage w1 = localStorage w2 ∧ setItemCalls w1 = setItemCalls w2.
Proof.
  intros Hscript.
  destruct (mount_of_spec Full JSON_stringify entries stored)
    as (Hwf1 & Hsettled & Hcart1 & Hls1 & Hcalls1 & Ht1 & Hreq1).
  destruct (mount_of_spec Draft JSON_stringify entries stored)
    as (Hwf2 & _ & Hcart2 & Hls2 & Hcalls2 & Ht2 & Hreq2).
  assert (∀ w1 w2,
    wf_world w1 → wf_world w2 → settled w1 →
    cart_list w1 = cart_list w2 → toasts w1 = toasts w2 →
    localStorage w1 = localStorage w2 → setItemCalls w1 = setItemCalls w2 →
    requests w1 = requests w2 →
    cart_list (run Full JSON_stringify script w1) = cart_list (run Draft JSON_stringify script w2) ∧
    toasts (run Full JSON_stringify script w1) = toasts (run Draft JSON_stringify script w2) ∧
    requests (run Full JSON_stringify script w1) = requests (run Draft JSON_stringify script w2) ∧
    localStorage (run Full JSON_stringify script w1)
    = localStorage (run Draft JSON_stringify script w2) ∧
    setItemCalls (run Full JSON_stringify script w1)
    = setItemCalls (run Draft JSON_stringify script w2)) as Hrun.
  { induction Hscript as [|[api a] script Ha _ IH]; intros w1 w2 ? ? ? ? ? ? ? ?; [done|].
    rewrite !run_cons.
    destruct (step_agree JSON_stringify api a w1 w2) as (? & ? & ? & ? & ? & ? & ? & ?);
      try done.
    by apply IH. }
  cbv zeta. apply Hrun; [done|done|done|congruence..].
Qed.

Lemma sessions_agree_witness :
  let script := [(sample_api, Add 2); (offline_api, Add 3); (sample_api, Remove 1)] in
  let w1 := run Full sample_stringify script (mount_of Full sample_stringify [shoe 1 2] None) in
  let w2 := run Draft sample_stringify script (mount_of Draft sample_stringify [shoe 1 2] None) in
  cart_list w1 = cart_list w2 ∧ toasts w1 = toasts w2 ∧ requests w1 = requests w2 ∧
  localStorage w1 = localStorage w2 ∧ setItemCalls w1 = setItemCalls w2.
Proof.
  apply (sessions_agree sample_stringify [shoe 1 2] None
           [(sample_api, Add 2); (offline_api, Add 3); (sample_api, Remove 1)]).
  repeat constructor; discriminate.
Defined.

(** ** Stock over a session *)

Lemma verdict_keeps_within_stock (api : Api) (a : Action) (cart updatedCart : list Product) :
  catalog_faithful api → within_stock api cart →
  verdict api a cart = Commit updatedCart → within_stock api updatedCart.
Proof.
  unfold within_stock. intros Hapi Hcart.
  assert (∀ productId x s,
            js_gt x (default None (stock_reading (stock_of api productId))) = false →
            stock_of api productId = Resolved (Amount s) → x <= s) as Hgt.
  { intros productId x s Hx Hstock. rewrite Hstock in Hx. simpl in Hx.
    apply bool_decide_eq_false in Hx. lia. }
  destruct a as [productId|productId|productId a]; simpl.
  - destruct (add_verdict_cases api productId cart)
      as [->|[[-> _]|[(l1 & e & l2 & -> & _ & He & Hle & ->)
                     |(_ & Hle & product & Hproduct & ->)]]];
      try done; intros [= <-].
    + apply Forall_app in Hcart as [Hl1 [_ Hl2]%Forall_cons].
      apply Forall_app. split; [done|]. constructor; [|done].
      simpl. rewrite He. intros s Hs. by eapply Hgt.
    + apply Forall_app. split; [done|]. repeat constructor.
      simpl. rewrite (Hapi _ _ Hproduct). intros s Hs. by eapply Hgt.
  - destruct (remove_verdict_cases productId cart)
      as [[_ ->]|(l1 & e & l2 & -> & _ & _ & ->)]; [done|]. intros [= <-].
    apply Forall_app in Hcart as [Hl1 [_ Hl2]%Forall_cons].
    by apply Forall_app.
  - destruct (update_verdict_cases api productId a cart)
      as [[_ ->]|[[_ ->]|[(_ & -> & _)|(_ & l1 & e & l2 & -> & _ & He & Hle & ->)]]];
      try done; intros [= <-].
    apply Forall_app in Hcart as [Hl1 [_ Hl2]%Forall_cons].
    apply Forall_app. split; [done|]. constructor; [|done].
    simpl. rewrite He. intros s Hs. by eapply Hgt.
Qed.

Lemma step_keeps_within_stock (v : Variant) (JSON_stringify : list Product → string)
    (api : Api) (a : Action) (w : World) :
  wf_world w → catalog_faithful api → within_stock api (cart_list w) →
  wf_world (step_of v JSON_stringify api a w).2 ∧
  within_stock api (cart_list (step_of v JSON_stringify api a w).2).
Proof.
  intros Hwf Hapi Hcart.
  destruct (step_spec v JSON_stringify api a w Hwf) as (w' & -> & Hwf' & _ & Hout).
  split; [done|]. simpl.
  destruct (verdict_of v api a (cart_list w)) as [updatedCart|n|] eqn:Hv; simpl in Hout.
  - destruct Hout as (-> & _).
    apply (verdict_keeps_within_stock api a (cart_list w)); [done|done|].
    by destruct v, a.
  - destruct Hout as (Hc & Hh & _). by rewrite (same_cart_list w w').
  - by subst.
Qed.

(** X20.  The cart never exceeds the stock.  While the stock service keeps
    giving the same answers and the catalog answers each lookup with the
    product asked for, a cart in which every entry is within the stock
    reported for its product stays so through any sequence of additions,
    removals and updates.  Both providers. *)
Theorem stock_respected_over_session (v : Variant) (JSON_stringify : list Product → string)
    (api : Api) (actions : list Action) (w : World) :
  wf_world w → catalog_faithful api →
  within_stock api (cart_list w) →
  within_stock api (cart_list (run v JSON_stringify ((λ a, (api, a)) <$> actions) w)).
Proof.
  intros Hwf Hapi. revert w Hwf.
  induction actions as [|a actions IH]; intros w Hwf Hcart; [done|].
  rewrite fmap_cons, run_cons.
  destruct (step_keeps_within_stock v JSON_stringify api a w Hwf Hapi Hcart)
    as [Hwf' Hcart'].
  by apply IH.
Qed.

Lemma stock_respected_over_session_witness :
  within_stock sample_api
    (cart_list (run Full sample_stringify
                  ((λ a, (sample_api, a)) <$> [Add 1; Add 1; Add 1; Add 1; Update 2 9; Add 3])
                  (sample_world [shoe 1 2; shoe 2 1]))).
Proof.
  apply (stock_respected_over_session Full sample_stringify sample_api
           [Add 1; Add 1; Add 1; Add 1; Update 2 9; Add 3]
           (sample_world [shoe 1 2; shoe 2 1])).
  - apply (bool_decide_unpack _). vm_compute. exact I.
  - intros productId product [= <-]. reflexivity.
  - assert (cart_list (sample_world [shoe 1 2; shoe 2 1]) = [shoe 1 2; shoe 2 1]) as ->
      by (vm_compute; reflexivity).
    repeat constructor; intros s [= <-]; simpl; lia.
Defined.
